(** * The benchmark harness of [main.py] and [jsonLoader.py]

    A shallow embedding of the per-problem pipeline (generation with
    retries, code clean-up, execution of the candidate, validation of its
    output) and of the driver around it, followed by the properties the
    specification states about them. *)

From Stdlib Require Import String Ascii ZArith NArith Lia DecimalString DecimalZ
  PrimFloat.
From stdpp Require Import base list gmap.

Set Warnings "-register-all".

Local Open Scope Z_scope.
Local Open Scope list_scope.

(** ** Python text *)

(** A Python [str] is a sequence of Unicode code points. *)
Definition pystr := list N.

(** Literals are written as Rocq strings; every character of the literals
    below is ASCII, so a character is its own code point. *)
Definition py (s : string) : pystr := map N_of_ascii (list_ascii_of_string s).

(** [str.isspace] on one character: CPython's [_PyUnicode_IsWhitespace]. *)
Definition is_space (c : N) : bool :=
  ((9 <=? c) && (c <=? 13) || (28 <=? c) && (c <=? 31) || (c =? 32)
   || (c =? 133) || (c =? 160) || (c =? 5760)
   || (8192 <=? c) && (c <=? 8202) || (c =? 8232) || (c =? 8233)
   || (c =? 8239) || (c =? 8287) || (c =? 12288))%N.

Fixpoint lstrip (s : pystr) : pystr :=
  match s with
  | [] => []
  | c :: s' => if is_space c then lstrip s' else s
  end.

Definition rstrip (s : pystr) : pystr := rev (lstrip (rev s)).

(** [s.strip()] with no argument. *)
Definition strip (s : pystr) : pystr := rstrip (lstrip s).

Fixpoint startswith (s p : pystr) {struct p} : bool :=
  match p, s with
  | [], _ => true
  | _ :: _, [] => false
  | a :: p', b :: s' => (a =? b)%N && startswith s' p'
  end.

(** The scan of [str.replace] for a non-empty [old]: left to right, the
    occurrences found do not overlap.  [skip] counts the characters of
    the occurrence just matched that are still to be passed over. *)
Fixpoint replace_scan (old new : pystr) (skip : nat) (s : pystr) : pystr :=
  match s with
  | [] => []
  | c :: s' =>
      match skip with
      | S k => replace_scan old new k s'
      | O =>
          if startswith s old
          then new ++ replace_scan old new (length old - 1) s'
          else c :: replace_scan old new 0 s'
      end
  end.

(** [s.replace(old, new)]; an empty [old] matches before every character
    and at the end. *)
Definition replace (s old new : pystr) : pystr :=
  match old with
  | [] => new ++ flat_map (fun c => c :: new) s
  | _ :: _ => replace_scan old new 0 s
  end.

(** Python truthiness of a [str]. *)
Definition truthy (s : pystr) : bool :=
  match s with [] => false | _ :: _ => true end.

Definition pystr_eqb (a b : pystr) : bool := bool_decide (a = b).

(** [p] occurs in [s] at some position. *)
Fixpoint contains (s p : pystr) : bool :=
  startswith s p ||
  match s with
  | [] => false
  | _ :: s' => contains s' p
  end.

(** ** [validate_solution] (main.py, 29-34) *)

Definition validate_solution (actual_output expected_output : pystr) : bool :=
  pystr_eqb (strip actual_output) (strip expected_output).

(** ** The clean-up of the generated text (main.py, 94-95) *)

Definition fence_python : pystr := Eval cbv in py "```python".
Definition fence : pystr := Eval cbv in py "```".

Definition clean_code (code_response : pystr) : pystr :=
  strip (replace (replace (strip code_response) fence_python []) fence []).

Definition LF : string := String (ascii_of_nat 10) EmptyString.

(** [sep.join(parts)]. *)
Fixpoint join (sep : pystr) (parts : list pystr) : pystr :=
  match parts with
  | [] => []
  | [p] => p
  | p :: rest => p ++ sep ++ join sep rest
  end.

(** The pieces into which a search for [old] from the left cuts a text,
    each occurrence found after the end of the one before (what
    [s.split(old)] returns): [old] begins nowhere in a piece that an
    occurrence follows, not even running over into that occurrence, and
    does not occur in the last piece. *)
Fixpoint leftmost (old : pystr) (parts : list pystr) : bool :=
  match parts with
  | [] => false
  | [p] => negb (contains p old)
  | p :: rest => negb (contains (p ++ removelast old) old) && leftmost old rest
  end.

(** [s] is its pieces [parts] with [old] between neighbours. *)
Definition pieces (old s : pystr) (parts : list pystr) : Prop :=
  s = join old parts /\ leftmost old parts = true.

(** The decimal text of an [int], as an f-string renders it. *)
Definition decimal (z : Z) : pystr := py (NilEmpty.string_of_int (Z.to_int z)).

(** ** JSON values and problem records *)

(** What [json.load] produces.  An object becomes a [dict]; the loader
    takes whatever value a file holds, so a problem can be any of these. *)
Inductive json : Type :=
| JNull
| JBool (b : bool)
| JInt (z : Z)
| JFloat (f : float)
| JStr (s : pystr)
| JList (l : list json)
| JObject (fields : gmap pystr json).

(** [d.get(key, default)]; Python's [None] is [JNull]. *)
Definition dict_get (d : gmap pystr json) (key : pystr) (default : json) : json :=
  match d !! key with
  | Some v => v
  | None => default
  end.

(** ** Exceptions, events and the monad of the harness *)

(** The classes derived from [Exception] that the handlers tell apart.
    [IOError] is an alias of [OSError]; [TimeoutExpired] carries what the
    child had written when it was stopped, [UnicodeEncodeError] the text
    that could not be encoded.  An interrupt of the harness
    itself ([KeyboardInterrupt], [SystemExit]) is not an [Exception] and is
    not part of a run here. *)
Inductive exn : Type :=
| OSError (msg : pystr)
| TimeoutExpired (output stderr : pystr)
| JSONDecodeError (msg : pystr)
| AttributeError (msg : pystr)
| UnicodeEncodeError (object : pystr)
| OtherException (msg : pystr).

(** One constructor per [print] statement (or group of adjacent ones). *)
Inductive message : Type :=
| MsgUsage                                        (* main.py 40-41 *)
| MsgLoading (path : pystr)                       (* 48 *)
| MsgFound (n estimate : Z)                       (* 51-53 *)
| MsgProcessing (k n attempt retries : Z)         (* 68 *)
| MsgApiError (attempt : Z) (e : exn)             (* 81 *)
| MsgWaitingRetry (delay : Z)                     (* 83 *)
| MsgFailedSkipping (k retries : Z)               (* 86 *)
| MsgGeneratedCode (k : Z) (code : pystr)         (* 98-100 *)
| MsgGeneratedHeader (k : Z)                      (* 98 alone *)
| MsgWritten (k : Z) (path : pystr)               (* 110-111 *)
| MsgErrorFrom (k : Z) (stderr : pystr)           (* 143-145 *)
| MsgFailRuntimeError                             (* 146 *)
| MsgOutputFrom (k : Z) (stdout : pystr)          (* 149-151 *)
| MsgValidationResult (is_correct : bool)         (* 160 *)
| MsgValidationSkipped                            (* 162 *)
| MsgErrorWriting (k : Z) (e : exn)               (* 166 *)
| MsgTimedOut (k : Z)                             (* 169 *)
| MsgErrorOccurred (k : Z) (e : exn)              (* 172 *)
| MsgWaitingNext                                  (* 178 *)
| MsgSummary (n : Z)                              (* 183-188 *)
| MsgNotADirectory (path : pystr)                 (* jsonLoader.py 21 *)
| MsgSkippingMalformed (file : pystr)             (* 36 *)
| MsgCouldNotRead (file : pystr) (e : exn)        (* 38 *)
| MsgUnexpected (file : pystr) (e : exn).         (* 40 *)

(** What a run does to the outside, in order. *)
Inductive event : Type :=
| Print (m : message)
| Sleep (seconds : Z)                             (* time.sleep *)
| LlmInvoke (query : json)                        (* llm.invoke *)
| MakeDirs (path : pystr)                         (* os.makedirs *)
| WriteFile (path content : pystr)                (* open(..., "w") and f.write *)
| SubprocessRun (command : list pystr) (input : option pystr) (timeout : Z)
| KillChild.                                      (* subprocess.run stops the child *)

(** A computation leaves a trace and ends with a value or with an
    exception that nothing caught. *)
Definition M (A : Type) : Type := list event * (exn + A).

#[global] Instance M_ret : MRet M := fun A a => ([], inr a).

#[global] Instance M_bind : MBind M := fun A B k m =>
  match m with
  | (t, inl e) => (t, inl e)
  | (t, inr a) => let '(t', r) := k a in (t ++ t', r)
  end.

Definition emit (e : event) : M unit := ([e], inr tt).
Definition print (m : message) : M unit := emit (Print m).
Definition sleep (seconds : Z) : M unit := emit (Sleep seconds).
Definition raise {A : Type} (e : exn) : M A := ([], inl e).

(** [try: body  except ...: handler]; the handler receives the exception
    and does the matching of the [except] clauses itself. *)
Definition try_except {A : Type} (body : M A) (handler : exn -> M A) : M A :=
  match body with
  | (t, inl e) => let '(t', r) := handler e in (t ++ t', r)
  | (t, inr a) => (t, inr a)
  end.

Definition trace {A : Type} (m : M A) : list event := fst m.
Definition result {A : Type} (m : M A) : exn + A := snd m.

(** ** The outside world *)

(** How the child process started by [subprocess.run] behaves. *)
Inductive child_behaviour : Type :=
| SpawnFails (e : exn)
    (* the process cannot be started, or its streams cannot be decoded *)
| Runs (elapsed : option Z) (stdout stderr : pystr).
    (* it runs for [elapsed] time units ([None]: for ever); [stdout] and
       [stderr] are what it has written when it exits or is stopped *)

(** The answers of the outside world during one run.  The calls made
    while problem [i] is processed are told apart by [i] (and by the
    attempt number), so any sequence of answers is some [world].
    [llm_invoke] gives the [content] of the response, a text, or the
    exception of the call; [json_load] stands for [open] and [json.load];
    [stdout_encodes] tells whether the encoding of [sys.stdout] has every
    character of a text. *)
Record world : Type := {
  llm_invoke : Z -> Z -> json -> exn + pystr;
  makedirs : Z -> pystr -> option exn;
  write_file : Z -> pystr -> pystr -> option exn;
  child : Z -> list pystr -> option pystr -> child_behaviour;
  is_dir : pystr -> bool;
  glob_json : pystr -> list pystr;
  json_load : pystr -> exn + json;
  stdout_encodes : pystr -> bool
}.

(** [subprocess.run(command, input=..., capture_output=True, text=True,
    timeout=...)]: the standard library stops a child that is still
    running at the timeout and raises [TimeoutExpired]. *)
Definition subprocess_run (w : world) (i : Z) (command : list pystr)
    (input : option pystr) (timeout : Z) : M (pystr * pystr) :=
  emit (SubprocessRun command input timeout) ;;
  match child w i command input with
  | SpawnFails e => raise e
  | Runs (Some elapsed) stdout stderr =>
      if elapsed <=? timeout then mret (stdout, stderr)
      else emit KillChild ;; raise (TimeoutExpired stdout stderr)
  | Runs None stdout stderr =>
      emit KillChild ;; raise (TimeoutExpired stdout stderr)
  end.

Definition call_llm (w : world) (i attempt : Z) (query : json) : M pystr :=
  emit (LlmInvoke query) ;;
  match llm_invoke w i attempt query with
  | inl e => raise e
  | inr content => mret content
  end.

Definition os_makedirs (w : world) (i : Z) (path : pystr) : M unit :=
  emit (MakeDirs path) ;;
  match makedirs w i path with
  | Some e => raise e
  | None => mret tt
  end.

Definition open_and_write (w : world) (i : Z) (path content : pystr) : M unit :=
  emit (WriteFile path content) ;;
  match write_file w i path content with
  | Some e => raise e
  | None => mret tt
  end.

(** Lines 98-100.  [print(clean_code)] encodes the text for [sys.stdout]
    and raises [UnicodeEncodeError] when a character has no encoding
    there; the line before it is out by then. *)
Definition print_generated_code (w : world) (i : Z) (clean_code : pystr)
    : M unit :=
  if stdout_encodes w clean_code then
    print (MsgGeneratedCode (i + 1) clean_code)
  else
    print (MsgGeneratedHeader (i + 1)) ;; raise (UnicodeEncodeError clean_code).

(** The name of the type of a value, as Python prints it. *)
Definition type_name (v : json) : pystr :=
  match v with
  | JNull => py "NoneType"
  | JBool _ => py "bool"
  | JInt _ => py "int"
  | JFloat _ => py "float"
  | JStr _ => py "str"
  | JList _ => py "list"
  | JObject _ => py "dict"
  end.

(** ** jsonLoader.py *)

(** The body of the [for file_path in dir_path.glob("*.json")] loop. *)
Fixpoint load_files (w : world) (files : list pystr)
    (all_file_dicts : list json) : M (list json) :=
  match files with
  | [] => mret all_file_dicts
  | file_path :: rest =>
      all_file_dicts' ←
        try_except
          (match json_load w file_path with
           | inl e => raise e
           | inr data => mret (all_file_dicts ++ [data])
           end)
          (fun e =>
             match e with
             | JSONDecodeError _ =>
                 print (MsgSkippingMalformed file_path) ;; mret all_file_dicts
             | OSError _ =>
                 print (MsgCouldNotRead file_path e) ;; mret all_file_dicts
             | _ =>
                 print (MsgUnexpected file_path e) ;; mret all_file_dicts
             end) ;
      load_files w rest all_file_dicts'
  end.

Definition parse_json_directory_to_dicts (w : world) (directory_path : pystr)
    : M (list json) :=
  if negb (is_dir w directory_path) then
    print (MsgNotADirectory directory_path) ;; mret []
  else
    load_files w (glob_json w directory_path) [].

(** ** main.py *)

(** How one pass through the body of the retry loop ends. *)
Inductive loop_exit (A : Type) : Type :=
| Break (a : A)
| Next (a : A).
Arguments Break {A} a.
Arguments Next {A} a.

Section Harness.

(** [str(v)] of a value that is not a [str] already: CPython's rendering
    of numbers, booleans, [None] and containers.  Nothing below depends
    on it. *)
Variable render : json -> pystr.

Definition py_str (v : json) : pystr :=
  match v with
  | JStr s => s
  | _ => render v
  end.

Definition max_retries : Z := 3.
Definition retry_delay : Z := 30.

(** [range(n)]. *)
Definition range (n : Z) : list Z := map Z.of_nat (seq 0 (Z.to_nat n)).

(** Lines 66-87: [for attempt in range(max_retries)], over the attempts
    still to make; [code_response] is the variable of that name. *)
Fixpoint retry_loop (w : world) (n i : Z) (query : json)
    (code_response : option pystr) (attempts : list Z) : M (option pystr) :=
  match attempts with
  | [] => mret code_response
  | attempt :: rest =>
      r ← try_except
            (print (MsgProcessing (i + 1) n (attempt + 1) max_retries) ;;
             content ← call_llm w i attempt query ;
             mret (Break (Some content)))
            (fun e =>
               print (MsgApiError (attempt + 1) e) ;;
               if attempt <? max_retries - 1 then
                 print (MsgWaitingRetry retry_delay) ;;
                 sleep retry_delay ;;
                 mret (Next code_response)
               else
                 print (MsgFailedSkipping (i + 1) max_retries) ;;
                 mret (Next None)) ;
      match r with
      | Break c => mret c
      | Next c => retry_loop w n i query c rest
      end
  end.

(** Lines 62-87. *)
Definition generate (w : world) (n i : Z) (query : json) : M (option pystr) :=
  retry_loop w n i query None (range max_retries).

(** Line 103. *)
Definition solution_path (i : Z) : pystr :=
  py "./solutions/solution_" ++ decimal (i + 1) ++ py ".py".

(** Lines 115-124. *)
Definition input_data (problem : gmap pystr json) : option pystr :=
  match dict_get problem (py "test_input") JNull with
  | JNull => None
  | JList test_input => Some (join (py LF) (map py_str test_input))
  | test_input => Some (py_str test_input)
  end.

(** Lines 137-162, from the two captured streams on. *)
Definition validation_logic (i : Z) (problem : gmap pystr json)
    (result_stdout result_stderr : pystr) : M unit :=
  let stdout := strip result_stdout in
  let stderr := strip result_stderr in
  if truthy stderr then
    print (MsgErrorFrom (i + 1) stderr) ;;
    print MsgFailRuntimeError
  else
    (if truthy stdout then print (MsgOutputFrom (i + 1) stdout) else mret tt) ;;
    match dict_get problem (py "test_output") JNull with
    | JNull => print MsgValidationSkipped
    | expected_output =>
        let is_correct := validate_solution stdout (py_str expected_output) in
        print (MsgValidationResult is_correct)
    end.

(** Lines 105-163: the body of the [try]. *)
Definition try_body (w : world) (i : Z) (problem : gmap pystr json)
    (clean_code : pystr) : M unit :=
  os_makedirs w i (py "./solutions") ;;
  open_and_write w i (solution_path i) clean_code ;;
  print (MsgWritten (i + 1) (solution_path i)) ;;
  let command := [py "python"; solution_path i] in
  '(out, err) ← subprocess_run w i command (input_data problem) 10 ;
  validation_logic i problem out err.

(** Lines 165-172: the three [except] clauses, tried in this order. *)
Definition handlers (i : Z) (e : exn) : M unit :=
  match e with
  | OSError _ => print (MsgErrorWriting (i + 1) e)
  | TimeoutExpired _ _ => print (MsgTimedOut (i + 1))
  | _ => print (MsgErrorOccurred (i + 1) e)
  end.

(** Lines 104-172: persist, execute and validate one candidate. *)
Definition execute (w : world) (i : Z) (problem : gmap pystr json)
    (clean_code : pystr) : M unit :=
  try_except (try_body w i problem clean_code) (handlers i).

(** Lines 59-180 for a problem that is a [dict]; [n] is [len(problems)].
    The generated code is printed outside every [try] (lines 98-100). *)
Definition iteration (w : world) (n i : Z) (problem : gmap pystr json) : M unit :=
  let query := dict_get problem (py "query") (JStr (py "No query provided.")) in
  code_response ← generate w n i query ;
  match code_response with
  | None => mret tt                                   (* continue *)
  | Some code_response =>
      let clean_code := clean_code code_response in
      print_generated_code w i clean_code ;;
      execute w i problem clean_code ;;
      if i <? n - 1 then
        print MsgWaitingNext ;; sleep 20
      else mret tt
  end.

(** Lines 59-180: the body of [for i, problem in enumerate(problems)].
    Only a [dict] has [get]: on any other value line 59 raises
    [AttributeError], and no [try] surrounds it. *)
Definition loop_body (w : world) (n i : Z) (problem : json) : M unit :=
  match problem with
  | JObject problem => iteration w n i problem
  | _ =>
      raise (AttributeError
               (py "'" ++ type_name problem
                  ++ py "' object has no attribute 'get'"))
  end.

(** Lines 58-180: the loop, from index [i] on.  An exception that leaves
    the body ends the loop. *)
Fixpoint for_problems (w : world) (n i : Z) (problems : list json) : M unit :=
  match problems with
  | [] => mret tt
  | problem :: rest =>
      loop_body w n i problem ;; for_problems w n (i + 1) rest
  end.

(** Lines 44-189: [main] once the argument is there. *)
Definition run (w : world) (json_directory_path : pystr) : M unit :=
  print (MsgLoading json_directory_path) ;;
  problems ← parse_json_directory_to_dicts w json_directory_path ;
  let n := Z.of_nat (length problems) in
  print (MsgFound n (n * 30)) ;;
  for_problems w n 0 problems ;;
  print (MsgSummary n).

(** How the process ends: [sys.exit(1)] and an exception that reaches the
    top give status 1, the end of [main] gives status 0. *)
Definition exit_status {A : Type} (m : M A) : Z :=
  match result m with
  | inl _ => 1
  | inr _ => 0
  end.

(** [main()] with [sys.argv]: the trace and the exit status. *)
Definition main (w : world) (argv : list pystr) : list event * Z :=
  if Z.of_nat (length argv) <? 2 then
    ([Print MsgUsage], 1)
  else
    let m := run w (nth 1 argv []) in
    (trace m, exit_status m).

(** ** The outcome of a problem *)

(** The terminal outcomes of the specification, as the status lines the
    harness prints for them. *)
Inductive outcome : Type :=
| PASS
| FAIL_MISMATCH
| FAIL_RUNTIME_ERROR
| SKIPPED_NO_EXPECTED
| GENERATION_EXHAUSTED
| PERSISTENCE_FAILED
| EXECUTION_TIMEOUT
| UNEXPECTED_ERROR.

Definition outcome_of (e : event) : option outcome :=
  match e with
  | Print MsgFailRuntimeError => Some FAIL_RUNTIME_ERROR
  | Print (MsgValidationResult true) => Some PASS
  | Print (MsgValidationResult false) => Some FAIL_MISMATCH
  | Print MsgValidationSkipped => Some SKIPPED_NO_EXPECTED
  | Print (MsgFailedSkipping _ _) => Some GENERATION_EXHAUSTED
  | Print (MsgErrorWriting _ _) => Some PERSISTENCE_FAILED
  | Print (MsgTimedOut _) => Some EXECUTION_TIMEOUT
  | Print (MsgErrorOccurred _ _) => Some UNEXPECTED_ERROR
  | _ => None
  end.

(** The outcomes recorded in a trace, in order. *)
Definition outcomes (t : list event) : list outcome := omap outcome_of t.

(** The outcome that the [except] clauses of lines 165-172 report for [e]. *)
Definition outcome_of_exception (e : exn) : outcome :=
  match e with
  | OSError _ => PERSISTENCE_FAILED
  | TimeoutExpired _ _ => EXECUTION_TIMEOUT
  | _ => UNEXPECTED_ERROR
  end.

(** The outcome that lines 141-162 report when standard error is empty. *)
Definition verdict_clean (problem : gmap pystr json) (result_stdout : pystr)
    : outcome :=
  match dict_get problem (py "test_output") JNull with
  | JNull => SKIPPED_NO_EXPECTED
  | expected_output =>
      if validate_solution (strip result_stdout) (py_str expected_output)
      then PASS else FAIL_MISMATCH
  end.


End Harness.

Definition is_llm_invoke (e : event) : bool :=
  match e with LlmInvoke _ => true | _ => false end.

Definition is_subprocess_run (e : event) : bool :=
  match e with SubprocessRun _ _ _ => true | _ => false end.

(** The events of persisting and running a candidate. *)
Definition is_execution (e : event) : bool :=
  match e with
  | MakeDirs _ | WriteFile _ _ | SubprocessRun _ _ _ | KillChild => true
  | _ => false
  end.

Definition is_sleep (seconds : Z) (e : event) : bool :=
  match e with Sleep s => s =? seconds | _ => false end.

(** How many events of a trace satisfy [f]. *)
Definition count (f : event -> bool) (t : list event) : nat :=
  length (List.filter f t).

(** The pauses between problems in a trace (line 179). *)
Definition inter_problem_delays (t : list event) : nat := count (is_sleep 20) t.


(** ** Concrete runs *)

(** [str] on [None], booleans and integers; the examples below contain no
    other value that is not a [str]. *)
Definition render_scalars (v : json) : pystr :=
  match v with
  | JNull => py "None"
  | JBool true => py "True"
  | JBool false => py "False"
  | JInt z => decimal z
  | JStr s => s
  | _ => []
  end.

(** A world in which the service always gives [answer], the file system
    accepts every write, every child behaves as [behaviour], and no path
    is a directory. *)
Definition steady_world (answer : exn + pystr) (behaviour : child_behaviour)
    : world :=
  {| llm_invoke := fun _ _ _ => answer;
     makedirs := fun _ _ => None;
     write_file := fun _ _ _ => None;
     child := fun _ _ _ => behaviour;
     is_dir := fun _ => false;
     glob_json := fun _ => [];
     json_load := fun _ => inl (OSError []);
     stdout_encodes := fun _ => true |}.

(** The sign problem of the specification, with and without its expected
    output. *)
Definition sign_problem : gmap pystr json :=
  <[py "query" := JStr (py "print sign")]>
    (<[py "test_input" := JStr (py "5")]>
       (<[py "test_output" := JStr (py "POSITIVE")]> ∅)).

Definition sign_problem_unchecked : gmap pystr json :=
  <[py "query" := JStr (py "print sign")]>
    (<[py "test_input" := JStr (py "5")]> ∅).

Definition sign_program : pystr :=
  py ("num = float(input())" ++ LF ++ "print('POSITIVE' if num > 0 else 'OTHER')").

(** The service is unreachable. *)
Definition service_down : world :=
  steady_world (inl (OtherException (py "rate limit"))) (Runs (Some 1) [] []).

(** A directory with two problem files and one file that is not JSON; the
    service answers at once and every candidate prints ["POSITIVE"]. *)
Definition two_problems : world :=
  {| llm_invoke := fun _ _ _ => inr sign_program;
     makedirs := fun _ _ => None;
     write_file := fun _ _ _ => None;
     child := fun _ _ _ => Runs (Some 1) (py ("POSITIVE" ++ LF)) [];
     is_dir := fun _ => true;
     glob_json := fun _ => [py "a.json"; py "notes.json"; py "b.json"];
     json_load := fun file =>
       if pystr_eqb file (py "notes.json")
       then inl (JSONDecodeError (py "Expecting value"))
       else if pystr_eqb file (py "a.json") then inr (JObject sign_problem)
       else inr (JObject sign_problem_unchecked);
     stdout_encodes := fun _ => true |}.

(** An answer with a character outside ASCII: [print('✓')], the check
    mark being the code point 10003. *)
Definition check_program : pystr := py "print('" ++ [10003%N] ++ py "')".

(** A directory with two problem files; the service answers at once with
    [check_program], and [sys.stdout] encodes ASCII only. *)
Definition ascii_console : world :=
  {| llm_invoke := fun _ _ _ => inr check_program;
     makedirs := fun _ _ => None;
     write_file := fun _ _ _ => None;
     child := fun _ _ _ => Runs (Some 1) [] [];
     is_dir := fun _ => true;
     glob_json := fun _ => [py "a.json"; py "b.json"];
     json_load := fun _ => inr (JObject sign_problem);
     stdout_encodes := forallb (fun c => (c <? 128)%N) |}.

(** A directory whose first file holds the array [[1, 2]] and whose second
    file holds the sign problem. *)
Definition array_file : world :=
  {| llm_invoke := fun _ _ _ => inr sign_program;
     makedirs := fun _ _ => None;
     write_file := fun _ _ _ => None;
     child := fun _ _ _ => Runs (Some 1) (py ("POSITIVE" ++ LF)) [];
     is_dir := fun _ => true;
     glob_json := fun _ => [py "a.json"; py "b.json"];
     json_load := fun file =>
       if pystr_eqb file (py "a.json") then inr (JList [JInt 1; JInt 2])
       else inr (JObject sign_problem);
     stdout_encodes := fun _ => true |}.


(** A problem whose input is a list. *)
Definition pair_problem : gmap pystr json :=
  <[py "query" := JStr (py "add two numbers")]>
    (<[py "test_input" := JList [JStr (py "3"); JInt 4]]>
       (<[py "test_output" := JInt 7]> ∅)).

(** ** Reading a trace *)

(** The file an event writes, with its content. *)
Definition written (e : event) : option (pystr * pystr) :=
  match e with WriteFile path content => Some (path, content) | _ => None end.

(** The query an event sends to the service. *)
Definition invoked_query (e : event) : option json :=
  match e with LlmInvoke query => Some query | _ => None end.


#[global] Arguments py : simpl never.
#[global] Arguments strip : simpl never.
#[global] Arguments decimal : simpl never.
#[global] Arguments solution_path : simpl never.
#[global] Arguments dict_get : simpl never.
#[global] Arguments validate_solution : simpl never.
#[global] Arguments clean_code : simpl never.
#[global] Arguments input_data : simpl never.

(** * Properties *)

(** ** Text *)

Lemma lstrip_spaces (ws s : pystr) :
  forallb is_space ws = true -> lstrip (ws ++ s) = lstrip s.
Proof.
  induction ws as [|c ws IH]; simpl; [reflexivity|].
  intros H. apply andb_prop in H as [Hc Hws]. rewrite Hc. auto.
Qed.

Lemma lstrip_all_spaces (ws : pystr) :
  forallb is_space ws = true -> lstrip ws = [].
Proof.
  intros H. rewrite <- (app_nil_r ws). rewrite lstrip_spaces by assumption.
  reflexivity.
Qed.

Lemma forallb_rev (f : N -> bool) (l : pystr) :
  forallb f (rev l) = forallb f l.
Proof.
  induction l as [|c l IH]; simpl; [reflexivity|].
  rewrite forallb_app, IH. simpl. rewrite andb_true_r. apply andb_comm.
Qed.

Lemma rstrip_spaces (s ws : pystr) :
  forallb is_space ws = true -> rstrip (s ++ ws) = rstrip s.
Proof.
  intros H. unfold rstrip. rewrite rev_app_distr, lstrip_spaces; [reflexivity|].
  rewrite forallb_rev. exact H.
Qed.

(** What [lstrip] drops is a run of whitespace in front. *)
Lemma lstrip_split (s : pystr) :
  exists ws, s = ws ++ lstrip s /\ forallb is_space ws = true.
Proof.
  induction s as [|c s [ws [E H]]]; simpl.
  - exists []. split; reflexivity.
  - destruct (is_space c) eqn:Hc.
    + exists (c :: ws). simpl. rewrite Hc, H. split; [f_equal; exact E | reflexivity].
    + exists []. split; reflexivity.
Qed.

Lemma rstrip_split (s : pystr) :
  exists ws, s = rstrip s ++ ws /\ forallb is_space ws = true.
Proof.
  destruct (lstrip_split (rev s)) as [ws [E H]].
  exists (rev ws). split.
  - unfold rstrip. rewrite <- rev_app_distr, <- E, rev_involutive. reflexivity.
  - rewrite forallb_rev. exact H.
Qed.

Lemma lstrip_head (s t : pystr) (c : N) :
  lstrip s = c :: t -> is_space c = false.
Proof.
  induction s as [|a s IH]; simpl; [discriminate|].
  destruct (is_space a) eqn:Ha; [exact IH|].
  intros E. injection E as -> _. exact Ha.
Qed.

Lemma rstrip_last (s t : pystr) (c : N) :
  rstrip s = t ++ [c] -> is_space c = false.
Proof.
  unfold rstrip. intros E.
  apply (f_equal (@rev N)) in E. rewrite rev_involutive, rev_app_distr in E.
  simpl in E. eapply lstrip_head. exact E.
Qed.

Lemma strip_split (s : pystr) :
  exists l r, s = l ++ strip s ++ r
              /\ forallb is_space l = true /\ forallb is_space r = true.
Proof.
  destruct (lstrip_split s) as [l [El Hl]].
  destruct (rstrip_split (lstrip s)) as [r [Er Hr]].
  exists l, r. unfold strip. rewrite <- Er, <- El. auto.
Qed.

Lemma strip_head (s t : pystr) (c : N) :
  strip s = c :: t -> is_space c = false.
Proof.
  unfold strip. intros E.
  destruct (rstrip_split (lstrip s)) as [ws [Ews _]].
  rewrite E in Ews. simpl in Ews. eapply lstrip_head. exact Ews.
Qed.

Lemma strip_last (s t : pystr) (c : N) :
  strip s = t ++ [c] -> is_space c = false.
Proof. unfold strip. apply rstrip_last. Qed.

Lemma rstrip_lstrip_spaces (a ws : pystr) :
  forallb is_space ws = true -> rstrip (lstrip (a ++ ws)) = rstrip (lstrip a).
Proof.
  intros H. induction a as [|c a IH]; simpl.
  - rewrite lstrip_all_spaces by assumption. reflexivity.
  - destruct (is_space c); [exact IH|].
    change (c :: a ++ ws) with ((c :: a) ++ ws). apply rstrip_spaces, H.
Qed.

(** Whitespace around a text does not change what [strip] gives. *)
Lemma strip_padding (l a r : pystr) :
  forallb is_space l = true -> forallb is_space r = true ->
  strip (l ++ a ++ r) = strip a.
Proof.
  intros Hl Hr. unfold strip. rewrite lstrip_spaces by assumption.
  apply rstrip_lstrip_spaces, Hr.
Qed.

Lemma strip_idempotent (s : pystr) : strip (strip s) = strip s.
Proof.
  destruct (strip_split s) as [l [r [E [Hl Hr]]]].
  rewrite E at 2. rewrite strip_padding by assumption. reflexivity.
Qed.

Lemma pystr_eqb_eq (a b : pystr) : pystr_eqb a b = true <-> a = b.
Proof. unfold pystr_eqb. apply bool_decide_eq_true. Qed.

Lemma startswith_app (p b : pystr) : startswith (p ++ b) p = true.
Proof.
  induction p as [|c p IH]; simpl; [reflexivity|].
  rewrite N.eqb_refl. exact IH.
Qed.

Lemma startswith_split (p s : pystr) :
  startswith s p = true -> exists b, s = p ++ b.
Proof.
  revert s. induction p as [|c p IH]; intros s; simpl.
  - intros _. exists s. reflexivity.
  - destruct s as [|a s]; [discriminate|].
    intros H. apply andb_prop in H as [Hc Hs].
    apply N.eqb_eq in Hc as ->. destruct (IH s Hs) as [b ->].
    exists b. reflexivity.
Qed.

Lemma contains_startswith (s p : pystr) :
  startswith s p = true -> contains s p = true.
Proof. destruct s; cbn [contains]; intros ->; reflexivity. Qed.

Lemma contains_intro (a p b : pystr) : contains (a ++ p ++ b) p = true.
Proof.
  induction a as [|c a IH].
  - cbn [app]. apply contains_startswith, startswith_app.
  - cbn [app contains]. rewrite IH. apply orb_true_r.
Qed.

Lemma contains_split (s p : pystr) :
  contains s p = true -> exists a b, s = a ++ p ++ b.
Proof.
  induction s as [|c s IH]; simpl; intros H; apply orb_prop in H as [H|H].
  - apply startswith_split in H as [b ->]. exists [], b. reflexivity.
  - discriminate.
  - apply startswith_split in H as [b ->]. exists [], b. reflexivity.
  - destruct (IH H) as [a [b ->]]. exists (c :: a), b. reflexivity.
Qed.

(** A text in which [old] does not occur is left as it is. *)
Lemma replace_absent (s old new : pystr) :
  old <> [] -> contains s old = false -> replace s old new = s.
Proof.
  intros Hold. unfold replace. destruct old as [|o old]; [congruence|].
  clear Hold. induction s as [|c s IH]; [reflexivity|].
  intros H. cbn [contains] in H. apply orb_false_elim in H as [Hs Hc].
  cbn [replace_scan]. rewrite Hs. f_equal. exact (IH Hc).
Qed.

Lemma contains_fence_python (s : pystr) :
  contains s fence_python = true -> contains s fence = true.
Proof.
  intros H. apply contains_split in H as [a [b ->]].
  change fence_python with (fence ++ py "python").
  rewrite <- (app_assoc fence). apply contains_intro.
Qed.

Lemma scan_fence_match (s : pystr) :
  replace_scan fence [] 0 (96 :: 96 :: 96 :: s)%N = replace_scan fence [] 0 s.
Proof. reflexivity. Qed.

Lemma scan_fence_keep (c : N) (s : pystr) :
  startswith (c :: s) fence = false ->
  replace_scan fence [] 0 (c :: s) = c :: replace_scan fence [] 0 s.
Proof. intros H. cbn [replace_scan]. rewrite H. reflexivity. Qed.

Lemma contains_cons (c : N) (s p : pystr) :
  contains (c :: s) p = startswith (c :: s) p || contains s p.
Proof. reflexivity. Qed.

Lemma startswith_fence_1 (c1 : N) (s : pystr) :
  (96 =? c1)%N = false -> startswith (c1 :: s) fence = false.
Proof. intros H. unfold fence. cbn [startswith]. rewrite H. reflexivity. Qed.

Lemma startswith_fence_2 (c1 c2 : N) (s : pystr) :
  (96 =? c2)%N = false -> startswith (c1 :: c2 :: s) fence = false.
Proof.
  intros H. unfold fence. cbn [startswith]. rewrite H. apply andb_false_r.
Qed.

Lemma startswith_fence_3 (c1 c2 c3 : N) (s : pystr) :
  (96 =? c3)%N = false -> startswith (c1 :: c2 :: c3 :: s) fence = false.
Proof.
  intros H. unfold fence. cbn [startswith]. rewrite H.
  cbn [andb]. rewrite !andb_false_r. reflexivity.
Qed.

(** After [replace("```", "")] no fence is left: of a run of backticks the
    scan removes three at a time and leaves fewer than three. *)
Lemma scan_fence_gone (n : nat) (s : pystr) :
  (length s < n)%nat -> contains (replace_scan fence [] 0 s) fence = false.
Proof.
  revert s. induction n as [|n IH]; intros s Hlen; [lia|].
  destruct s as [|c1 s]; [reflexivity|].
  destruct (N.eqb_spec 96 c1) as [<-|H1]; cycle 1.
  { apply N.eqb_neq in H1.
    rewrite scan_fence_keep by (apply startswith_fence_1, H1).
    rewrite contains_cons, startswith_fence_1 by exact H1.
    apply IH. cbn in Hlen. lia. }
  destruct s as [|c2 s]; [reflexivity|].
  destruct (N.eqb_spec 96 c2) as [<-|H2]; cycle 1.
  { apply N.eqb_neq in H2.
    rewrite scan_fence_keep by (apply startswith_fence_2, H2).
    rewrite scan_fence_keep by (apply startswith_fence_1, H2).
    rewrite contains_cons, startswith_fence_2 by exact H2.
    rewrite contains_cons, startswith_fence_1 by exact H2.
    apply IH. cbn in Hlen. lia. }
  destruct s as [|c3 s]; [reflexivity|].
  destruct (N.eqb_spec 96 c3) as [<-|H3]; cycle 1.
  { apply N.eqb_neq in H3.
    rewrite scan_fence_keep by (apply startswith_fence_3, H3).
    rewrite scan_fence_keep by (apply startswith_fence_2, H3).
    rewrite scan_fence_keep by (apply startswith_fence_1, H3).
    rewrite contains_cons, startswith_fence_3 by exact H3.
    rewrite contains_cons, startswith_fence_2 by exact H3.
    rewrite contains_cons, startswith_fence_1 by exact H3.
    apply IH. cbn in Hlen. lia. }
  rewrite scan_fence_match. apply IH. cbn in Hlen. lia.
Qed.

Lemma replace_fence_gone (s : pystr) : contains (replace s fence []) fence = false.
Proof. exact (scan_fence_gone (S (length s)) s (Nat.lt_succ_diag_r _)). Qed.

Lemma contains_strip (s p : pystr) :
  contains (strip s) p = true -> contains s p = true.
Proof.
  intros H. apply contains_split in H as [a [b E]].
  destruct (strip_split s) as [l [r [Es _]]].
  rewrite Es, E.
  replace (l ++ (a ++ p ++ b) ++ r) with ((l ++ a) ++ p ++ (b ++ r))
    by (rewrite <- !app_assoc; reflexivity).
  apply contains_intro.
Qed.

Lemma not_contains_strip (s p : pystr) :
  contains s p = false -> contains (strip s) p = false.
Proof.
  intros H. destruct (contains (strip s) p) eqn:E; [|reflexivity].
  apply contains_strip in E. congruence.
Qed.

Lemma clean_code_no_fence (raw a b : pystr) : clean_code raw <> a ++ fence ++ b.
Proof.
  unfold clean_code. intros E.
  pose proof (contains_intro a fence b) as H. rewrite <- E in H.
  apply contains_strip in H. rewrite replace_fence_gone in H. discriminate.
Qed.

(** ** C3: the validator *)

(** C3. [validate_solution] is true exactly when the two texts are equal
    after [strip]: whitespace around either text does not matter, texts
    that carry none are compared as they are (so whitespace inside a text
    and the case of letters count), and the three examples of the
    specification come out as stated. *)
Theorem C3_validate_trimmed_equality (actual expected : pystr) :
  (validate_solution actual expected = true <-> strip actual = strip expected)
  /\ (forall l1 r1 l2 r2 : pystr,
        forallb is_space (l1 ++ r1 ++ l2 ++ r2) = true ->
        validate_solution (l1 ++ actual ++ r1) (l2 ++ expected ++ r2)
        = validate_solution actual expected)
  /\ (strip actual = actual -> strip expected = expected ->
      (validate_solution actual expected = true <-> actual = expected))
  /\ validate_solution (py ("5" ++ LF)) (py "5") = true
  /\ validate_solution (py "5") (py " 5 ") = true
  /\ validate_solution (py "5") (py "05") = false
  /\ validate_solution (py "a b") (py "ab") = false
  /\ validate_solution (py "Pass") (py "pass") = false.
Proof.
  split; [apply pystr_eqb_eq|].
  split.
  { intros l1 r1 l2 r2 H. rewrite !forallb_app in H.
    apply andb_prop in H as [H1 H]. apply andb_prop in H as [H2 H].
    apply andb_prop in H as [H3 H4].
    unfold validate_solution. rewrite !strip_padding by assumption.
    reflexivity. }
  split.
  { intros Ha He. unfold validate_solution. rewrite Ha, He.
    apply pystr_eqb_eq. }
  repeat split; vm_compute; reflexivity.
Qed.

(** C3 at [" 5\n"] against ["5  "]. *)
Lemma C3_validate_witness :
  validate_solution (py " " ++ py "5" ++ py LF) ([] ++ py "5" ++ py "  ")
  = validate_solution (py "5") (py "5").
Proof.
  apply (proj1 (proj2 (C3_validate_trimmed_equality (py "5") (py "5")))).
  reflexivity.
Defined.

(** *** [replace] and the pieces of a text *)

Lemma startswith_length (s p : pystr) :
  startswith s p = true -> (length p <= length s)%nat.
Proof.
  intros H. apply startswith_split in H as [b ->]. rewrite length_app. lia.
Qed.

Lemma startswith_app_l (x y p : pystr) :
  (length p <= length x)%nat -> startswith (x ++ y) p = startswith x p.
Proof.
  revert x. induction p as [|c p IH]; intros x Hlen; [reflexivity|].
  destruct x as [|a x]; [cbn in Hlen; lia|].
  cbn [app startswith]. rewrite IH by (cbn in Hlen; lia). reflexivity.
Qed.

Lemma contains_short (s p : pystr) :
  (length s < length p)%nat -> contains s p = false.
Proof.
  induction s as [|c s IH]; intros Hlen.
  - destruct p; [cbn in Hlen; lia|reflexivity].
  - cbn [contains]. rewrite IH by (cbn in Hlen; lia).
    destruct (startswith (c :: s) p) eqn:E; [|reflexivity].
    apply startswith_length in E. lia.
Qed.

(** The characters of an occurrence just matched are passed over. *)
Lemma scan_skip (old new x rest : pystr) :
  replace_scan old new (length x) (x ++ rest) = replace_scan old new 0 rest.
Proof.
  induction x as [|a x IH]; [destruct rest; reflexivity|].
  cbn [length app replace_scan]. exact IH.
Qed.

Lemma removelast_last (o : N) (old : pystr) :
  exists front back, o :: old = front ++ [back] /\ removelast (o :: old) = front.
Proof.
  exists (removelast (o :: old)), (List.last (o :: old) o).
  split; [apply app_removelast_last; discriminate|reflexivity].
Qed.

(** Whether [old] begins at the head of a text is decided by the first
    [length old] characters. *)
Lemma startswith_overrun (a : N) (x old rest : pystr) :
  startswith (a :: x ++ old ++ rest) old
  = startswith (a :: x ++ removelast old) old.
Proof.
  destruct old as [|o old']; [reflexivity|].
  destruct (removelast_last o old') as (front & back & E & ->).
  assert (Hlen : (length (o :: old') <= length (a :: x ++ front))%nat).
  { rewrite E. cbn [length]. rewrite !length_app. cbn [length]. lia. }
  rewrite <- (startswith_app_l (a :: x ++ front) ([back] ++ rest) (o :: old') Hlen).
  f_equal. rewrite E. cbn [app]. rewrite <- !app_assoc. reflexivity.
Qed.

(** The scan copies a piece up to the first occurrence of [old] and puts
    [new] in its place. *)
Lemma scan_piece (o : N) (old' new p rest : pystr) :
  contains (p ++ removelast (o :: old')) (o :: old') = false ->
  replace_scan (o :: old') new 0 (p ++ (o :: old') ++ rest)
  = p ++ new ++ replace_scan (o :: old') new 0 rest.
Proof.
  intros H. induction p as [|a p IH].
  - cbn [app replace_scan].
    change (o :: old' ++ rest) with ((o :: old') ++ rest).
    rewrite startswith_app.
    replace (length (o :: old') - 1)%nat with (length old')
      by (cbn [length]; lia).
    rewrite scan_skip. reflexivity.
  - change ((a :: p) ++ removelast (o :: old'))
      with (a :: (p ++ removelast (o :: old'))) in H.
    rewrite contains_cons in H. apply orb_false_elim in H as [Hs Hc].
    rewrite <- (startswith_overrun a p (o :: old') rest) in Hs.
    change ((a :: p) ++ (o :: old') ++ rest)
      with (a :: p ++ (o :: old') ++ rest).
    cbn [replace_scan]. rewrite Hs. cbn [app]. f_equal. exact (IH Hc).
Qed.

(** [s.replace(old, new)] is [new.join(s.split(old))]. *)
Lemma leftmost_replace (old new : pystr) (parts : list pystr) :
  old <> [] -> leftmost old parts = true ->
  replace (join old parts) old new = join new parts.
Proof.
  intros Hold. induction parts as [|p rest IH]; [discriminate|].
  destruct rest as [|q rest].
  - cbn [leftmost join]. intros H. apply negb_true_iff in H.
    apply replace_absent; assumption.
  - intros H.
    change (leftmost old (p :: q :: rest))
      with (negb (contains (p ++ removelast old) old) && leftmost old (q :: rest))
      in H.
    apply andb_prop in H as [Hp Hr]. apply negb_true_iff in Hp.
    change (join old (p :: q :: rest)) with (p ++ old ++ join old (q :: rest)).
    change (join new (p :: q :: rest)) with (p ++ new ++ join new (q :: rest)).
    rewrite <- (IH Hr).
    destruct old as [|o old']; [congruence|].
    unfold replace. apply scan_piece. exact Hp.
Qed.

(** Where [old] occurs, it has a first occurrence. *)
Lemma contains_first (old s : pystr) :
  old <> [] -> contains s old = true ->
  exists p rest,
    s = p ++ old ++ rest /\ contains (p ++ removelast old) old = false.
Proof.
  intros Hold. induction s as [|c s IH]; intros H.
  - destruct old; [congruence|discriminate].
  - destruct (startswith (c :: s) old) eqn:Es.
    + apply startswith_split in Es as [rest ->].
      exists [], rest. split; [reflexivity|].
      apply contains_short. cbn [app].
      destruct old as [|o old']; [congruence|].
      destruct (removelast_last o old') as (front & back & E & ->).
      rewrite E, length_app. cbn [length]. lia.
    + rewrite contains_cons, Es in H. cbn [orb] in H.
      destruct (IH H) as (p & rest & -> & Hp).
      exists (c :: p), rest. split; [reflexivity|].
      change ((c :: p) ++ removelast old) with (c :: (p ++ removelast old)).
      rewrite contains_cons, Hp, orb_false_r.
      rewrite <- startswith_overrun with (rest := rest). exact Es.
Qed.

(** Every text has its pieces. *)
Lemma leftmost_exists (old : pystr) :
  old <> [] -> forall s, exists parts, pieces old s parts.
Proof.
  intros Hold s.
  remember (length s) as n eqn:Hn. revert s Hn.
  induction n as [n IH] using lt_wf_ind. intros s ->.
  destruct (contains s old) eqn:Ec.
  - destruct (contains_first old s Hold Ec) as (p & rest & -> & Hp).
    destruct (IH (length rest)) with (s := rest) as [parts [Hj Hl]];
      [|reflexivity|].
    { rewrite !length_app. destruct old; [congruence|]. cbn [length]. lia. }
    exists (p :: parts). destruct parts as [|q parts]; [discriminate|].
    split.
    + rewrite Hj. reflexivity.
    + change (negb (contains (p ++ removelast old) old)
              && leftmost old (q :: parts) = true).
      rewrite Hp, Hl. reflexivity.
  - exists [s]. split; [reflexivity|]. cbn [leftmost]. rewrite Ec. reflexivity.
Qed.

Lemma join_nil (parts : list pystr) : join [] parts = concat parts.
Proof.
  induction parts as [|p rest IH]; [reflexivity|].
  destruct rest as [|q rest]; [cbn; rewrite app_nil_r; reflexivity|].
  change (join [] (p :: q :: rest)) with (p ++ [] ++ join [] (q :: rest)).
  rewrite IH. reflexivity.
Qed.

Lemma pieces_replace (old s : pystr) (parts : list pystr) :
  old <> [] -> pieces old s parts -> replace s old [] = concat parts.
Proof.
  intros Hold [-> Hl]. rewrite leftmost_replace by assumption. apply join_nil.
Qed.

(** The scan copies a stretch without backticks as it is. *)
Lemma scan_plain (old' new body rest : pystr) :
  forallb (fun c => negb (c =? 96)%N) body = true ->
  replace_scan (96%N :: old') new 0 (body ++ rest)
  = body ++ replace_scan (96%N :: old') new 0 rest.
Proof.
  intros H. induction body as [|c body IH]; [reflexivity|].
  cbn [forallb] in H. apply andb_prop in H as [Hc Hb].
  apply negb_true_iff in Hc. rewrite N.eqb_sym in Hc.
  cbn [app replace_scan startswith]. rewrite Hc. cbn [andb].
  f_equal. exact (IH Hb).
Qed.

Lemma rstrip_keeps (s : pystr) (c : N) :
  is_space c = false -> rstrip (s ++ [c]) = s ++ [c].
Proof.
  intros Hc. unfold rstrip. rewrite rev_app_distr. cbn [rev app lstrip].
  rewrite Hc. cbn [rev]. rewrite rev_involutive. reflexivity.
Qed.

(** An answer that is one fenced block comes out as the trimmed code. *)
Lemma clean_code_fenced (l body r : pystr) :
  forallb is_space l = true -> forallb is_space r = true ->
  forallb (fun c => negb (c =? 96)%N) body = true ->
  clean_code (l ++ fence_python ++ body ++ fence ++ r) = strip body.
Proof.
  intros Hl Hr Hb. unfold clean_code.
  replace (l ++ fence_python ++ body ++ fence ++ r)
    with (l ++ (fence_python ++ body ++ fence) ++ r)
    by (rewrite <- !app_assoc; reflexivity).
  rewrite strip_padding by assumption.
  assert (Hs : strip (fence_python ++ body ++ fence)
               = fence_python ++ body ++ fence).
  { unfold strip.
    replace (lstrip (fence_python ++ body ++ fence))
      with (fence_python ++ body ++ fence) by reflexivity.
    change fence with ([96; 96]%N ++ [96%N]).
    rewrite !app_assoc. apply rstrip_keeps. reflexivity. }
  rewrite Hs.
  replace (replace (fence_python ++ body ++ fence) fence_python [])
    with (replace_scan fence_python [] 0 (body ++ fence)) by reflexivity.
  unfold fence_python at 1. rewrite scan_plain by exact Hb.
  replace (replace_scan _ [] 0 fence) with fence by reflexivity.
  replace (replace (body ++ fence) fence [])
    with (replace_scan [96; 96; 96]%N [] 0 (body ++ fence)) by reflexivity.
  rewrite scan_plain by exact Hb.
  replace (replace_scan _ [] 0 fence) with (@nil N) by reflexivity.
  rewrite app_nil_r. reflexivity.
Qed.

(** ** C9: the code extractor *)

(** C9 as stated fails: of the language tags only [python] goes with its
    fence.  The tags [py] and [Python] stay in the text, and of [python3]
    the [3] stays; the result is not the code alone. *)
Lemma C9_counterexample :
  clean_code (py ("```py" ++ LF ++ "print(1)" ++ LF ++ "```"))
  = py ("py" ++ LF ++ "print(1)")
  /\ clean_code (py ("```py" ++ LF ++ "print(1)" ++ LF ++ "```"))
     <> py "print(1)"
  /\ clean_code (py ("```Python" ++ LF ++ "print(1)" ++ LF ++ "```"))
     = py ("Python" ++ LF ++ "print(1)")
  /\ clean_code (py ("```python3" ++ LF ++ "print(1)" ++ LF ++ "```"))
     = py ("3" ++ LF ++ "print(1)").
Proof. repeat split; vm_compute; congruence. Qed.

(** C9, amended. [clean_code] is a function of the raw text alone, defined
    on every text.  Its result neither starts nor ends with whitespace and
    contains no fence at any position.  It is found in this way, and in no
    other: the trimmed raw text is cut into its pieces at the marker
    [```python], the pieces are put together and cut again at [```], and
    these pieces put together and trimmed are the result; such pieces exist
    for every text.  So where the marker [```python] is nowhere in the raw
    text, only the fences [```] go and whatever follows one, a tag
    included, stays.  A raw text without a fence is trimmed and no more, a
    raw text that is one block fenced with [```python] comes out as its
    trimmed code, and the result is empty in the worst case. *)
Theorem C9_clean_code_deletes_markers (raw : pystr) :
  (forall c s, clean_code raw = c :: s -> is_space c = false)
  /\ (forall c s, clean_code raw = s ++ [c] -> is_space c = false)
  /\ (forall a b, clean_code raw <> a ++ fence ++ b)
  /\ (exists ps qs,
        pieces fence_python (strip raw) ps /\ pieces fence (concat ps) qs)
  /\ (forall ps qs,
        pieces fence_python (strip raw) ps ->
        pieces fence (concat ps) qs ->
        clean_code raw = strip (concat qs))
  /\ (contains raw fence_python = false ->
      forall qs,
        pieces fence (strip raw) qs -> clean_code raw = strip (concat qs))
  /\ (contains raw fence = false -> clean_code raw = strip raw)
  /\ (forall l body r,
        raw = l ++ fence_python ++ body ++ fence ++ r ->
        forallb is_space l = true -> forallb is_space r = true ->
        forallb (fun c => negb (c =? 96)%N) body = true ->
        clean_code raw = strip body)
  /\ clean_code (py "```python```") = [].
Proof.
  assert (Hcut : forall ps qs,
            pieces fence_python (strip raw) ps ->
            pieces fence (concat ps) qs ->
            clean_code raw = strip (concat qs)).
  { intros ps qs Hps Hqs. unfold clean_code.
    rewrite (pieces_replace fence_python _ ps) by (exact Hps || discriminate).
    rewrite (pieces_replace fence _ qs) by (exact Hqs || discriminate).
    reflexivity. }
  split; [intros c s; apply strip_head|].
  split; [intros c s; apply strip_last|].
  split; [intros a b; apply clean_code_no_fence|].
  split.
  { destruct (leftmost_exists fence_python ltac:(discriminate) (strip raw))
      as [ps Hps].
    destruct (leftmost_exists fence ltac:(discriminate) (concat ps))
      as [qs Hqs].
    exists ps, qs. split; assumption. }
  split; [exact Hcut|].
  split.
  { intros H qs Hqs. apply (Hcut [strip raw]).
    - split; [reflexivity|]. cbn [leftmost].
      rewrite (not_contains_strip _ _ H). reflexivity.
    - cbn [concat]. rewrite app_nil_r. exact Hqs. }
  split; [|split; [|reflexivity]]; cycle 1.
  { intros l body r -> Hl Hr Hb. apply clean_code_fenced; assumption. }
  intros H. unfold clean_code.
  assert (Hs : contains (strip raw) fence = false) by (apply not_contains_strip, H).
  assert (Hp : contains (strip raw) fence_python = false).
  { destruct (contains (strip raw) fence_python) eqn:E; [|reflexivity].
    apply contains_fence_python in E. congruence. }
  rewrite (replace_absent _ fence_python) by (exact Hp || discriminate).
  rewrite (replace_absent _ fence) by (exact Hs || discriminate).
  apply strip_idempotent.
Qed.

(** C9 at an answer with prose around a fenced block, at a block tagged
    [py], at a text without fences and at a fenced answer. *)
Lemma C9_clean_code_witness :
  clean_code (py ("Here it is:" ++ LF ++ "```python" ++ LF ++ "print(1)" ++ LF
                    ++ "``` Done."))
  = strip (concat [py ("Here it is:" ++ LF ++ LF ++ "print(1)" ++ LF);
                   py " Done."])
  /\ clean_code (py ("```py" ++ LF ++ "print(1)" ++ LF ++ "```"))
     = strip (concat [[]; py ("py" ++ LF ++ "print(1)" ++ LF); []])
  /\ clean_code (py (" print(1)" ++ LF)) = strip (py (" print(1)" ++ LF))
  /\ clean_code (py LF ++ fence_python ++ py (LF ++ "print(1)" ++ LF)
                   ++ fence ++ py LF)
     = strip (py (LF ++ "print(1)" ++ LF)).
Proof.
  split; [|split; [|split]].
  - apply (proj1 (proj2 (proj2 (proj2 (proj2
      (C9_clean_code_deletes_markers
         (py ("Here it is:" ++ LF ++ "```python" ++ LF ++ "print(1)" ++ LF
                ++ "``` Done."))))))))
      with (ps := [py ("Here it is:" ++ LF);
                   py (LF ++ "print(1)" ++ LF ++ "``` Done.")]);
      split; reflexivity.
  - apply (proj1 (proj2 (proj2 (proj2 (proj2 (proj2
      (C9_clean_code_deletes_markers
         (py ("```py" ++ LF ++ "print(1)" ++ LF ++ "```")))))))));
      [reflexivity|split; reflexivity].
  - apply (proj1 (proj2 (proj2 (proj2 (proj2 (proj2 (proj2
      (C9_clean_code_deletes_markers (py (" print(1)" ++ LF)))))))))).
    reflexivity.
  - apply (proj1 (proj2 (proj2 (proj2 (proj2 (proj2 (proj2 (proj2
      (C9_clean_code_deletes_markers
         (py LF ++ fence_python ++ py (LF ++ "print(1)" ++ LF)
            ++ fence ++ py LF)))))))))
      (py LF) (py (LF ++ "print(1)" ++ LF)) (py LF)); reflexivity.
Defined.

(** * The pipeline *)

(** ** The retry loop *)

Lemma range_max_retries : range max_retries = [0; 1; 2].
Proof. reflexivity. Qed.

Ltac run_M :=
  unfold call_llm, os_makedirs, open_and_write, subprocess_run, print, sleep,
    emit, raise, try_except, mbind, M_bind, mret, M_ret in *;
  cbn.

Lemma retry_loop_success w n i q cr a rest c :
  llm_invoke w i a q = inr c ->
  retry_loop w n i q cr (a :: rest)
  = ([Print (MsgProcessing (i + 1) n (a + 1) max_retries); LlmInvoke q],
     inr (Some c)).
Proof. intros H. cbn [retry_loop]. run_M. rewrite H. reflexivity. Qed.

Lemma retry_loop_failure w n i q cr a rest e :
  llm_invoke w i a q = inl e ->
  retry_loop w n i q cr (a :: rest)
  = if a <? max_retries - 1 then
      let '(t, r) := retry_loop w n i q cr rest in
      ([Print (MsgProcessing (i + 1) n (a + 1) max_retries); LlmInvoke q;
        Print (MsgApiError (a + 1) e);
        Print (MsgWaitingRetry retry_delay); Sleep retry_delay] ++ t, r)
    else
      let '(t, r) := retry_loop w n i q None rest in
      ([Print (MsgProcessing (i + 1) n (a + 1) max_retries); LlmInvoke q;
        Print (MsgApiError (a + 1) e);
        Print (MsgFailedSkipping (i + 1) max_retries)] ++ t, r).
Proof.
  intros H. cbn [retry_loop]. run_M. rewrite H.
  destruct (a <? max_retries - 1); cbn.
  - destruct (retry_loop w n i q cr rest) as [t [e'|c]]; reflexivity.
  - destruct (retry_loop w n i q None rest) as [t [e'|c]]; reflexivity.
Qed.

(** The four ways the retry loop can go. *)
Lemma generate_unfold w n i q :
  generate w n i q =
  let p k := Print (MsgProcessing (i + 1) n k 3) in
  let f k e := [Print (MsgApiError k e); Print (MsgWaitingRetry 30); Sleep 30] in
  match llm_invoke w i 0 q with
  | inr c => ([p 1; LlmInvoke q], inr (Some c))
  | inl e0 =>
      match llm_invoke w i 1 q with
      | inr c => ([p 1; LlmInvoke q] ++ f 1 e0 ++ [p 2; LlmInvoke q], inr (Some c))
      | inl e1 =>
          match llm_invoke w i 2 q with
          | inr c =>
              ([p 1; LlmInvoke q] ++ f 1 e0 ++ [p 2; LlmInvoke q] ++ f 2 e1
                 ++ [p 3; LlmInvoke q], inr (Some c))
          | inl e2 =>
              ([p 1; LlmInvoke q] ++ f 1 e0 ++ [p 2; LlmInvoke q] ++ f 2 e1
                 ++ [p 3; LlmInvoke q; Print (MsgApiError 3 e2);
                     Print (MsgFailedSkipping (i + 1) 3)], inr None)
          end
      end
  end.
Proof.
  unfold generate. rewrite range_max_retries.
  destruct (llm_invoke w i 0 q) eqn:E0;
    [|erewrite retry_loop_success by eassumption; reflexivity].
  erewrite retry_loop_failure by eassumption.
  destruct (llm_invoke w i 1 q) eqn:E1;
    [|erewrite retry_loop_success by eassumption; reflexivity].
  erewrite retry_loop_failure by eassumption.
  destruct (llm_invoke w i 2 q) eqn:E2;
    [|erewrite retry_loop_success by eassumption; reflexivity].
  erewrite retry_loop_failure by eassumption.
  reflexivity.
Qed.

Ltac generate_cases w i q :=
  rewrite ?generate_unfold in *;
  destruct (llm_invoke w i 0 q) as [?e0|?c] eqn:?E0;
    [destruct (llm_invoke w i 1 q) as [?e1|?c] eqn:?E1;
       [destruct (llm_invoke w i 2 q) as [?e2|?c] eqn:?E2|]|];
  cbn [trace result fst snd app] in *.

(** The retry loop never lets an exception out. *)
Lemma generate_result w n i q : exists c, result (generate w n i q) = inr c.
Proof. generate_cases w i q; eauto. Qed.

(** It reports exhaustion exactly when it gives no text. *)
Lemma generate_outcomes w n i q :
  outcomes (trace (generate w n i q))
  = match result (generate w n i q) with
    | inr None => [GENERATION_EXHAUSTED]
    | _ => []
    end.
Proof. generate_cases w i q; reflexivity. Qed.

Lemma generate_events w n i q :
  count is_execution (trace (generate w n i q)) = 0%nat
  /\ count (is_sleep 20) (trace (generate w n i q)) = 0%nat
  /\ (count is_llm_invoke (trace (generate w n i q)) <= 3)%nat.
Proof. generate_cases w i q; vm_compute; repeat split; lia. Qed.

(** ** Persisting, running and validating a candidate *)

Lemma handlers_run i e :
  exists m, handlers i e = ([Print m], inr tt)
            /\ outcome_of (Print m) = Some (outcome_of_exception e).
Proof. destruct e; eexists; split; reflexivity. Qed.

Lemma handlers_facts i e :
  outcomes (trace (handlers i e)) = [outcome_of_exception e]
  /\ count is_llm_invoke (trace (handlers i e)) = 0%nat
  /\ count (is_sleep 20) (trace (handlers i e)) = 0%nat.
Proof. destruct e; repeat split. Qed.

Lemma validation_logic_run render i problem out err :
  exists t, validation_logic render i problem out err = (t, inr tt)
    /\ outcomes t = [if truthy (strip err) then FAIL_RUNTIME_ERROR
                     else verdict_clean render problem out]
    /\ count is_execution t = 0%nat
    /\ count is_llm_invoke t = 0%nat
    /\ count (is_sleep 20) t = 0%nat
    /\ (truthy (strip err) = false ->
        t = trace (validation_logic render i problem out [])).
Proof.
  unfold validation_logic, verdict_clean.
  change (strip []) with (@nil N). cbn [truthy].
  destruct (truthy (strip err)); run_M.
  { eexists; repeat split; discriminate. }
  destruct (truthy (strip out));
    destruct (dict_get problem (py "test_output") JNull); cbn;
    try destruct (validate_solution _ _);
    eexists; repeat split; reflexivity.
Qed.

Lemma count_app f t1 t2 : count f (t1 ++ t2) = (count f t1 + count f t2)%nat.
Proof. unfold count. rewrite List.filter_app, length_app. reflexivity. Qed.

Lemma outcomes_app t1 t2 : outcomes (t1 ++ t2) = outcomes t1 ++ outcomes t2.
Proof. apply omap_app. Qed.

(** The candidate ran to its end in time: what follows is the validation. *)
Lemma execute_completed render w i problem code elapsed out err :
  makedirs w i (py "./solutions") = None ->
  write_file w i (solution_path i) code = None ->
  child w i [py "python"; solution_path i] (input_data render problem)
  = Runs (Some elapsed) out err ->
  elapsed <= 10 ->
  execute render w i problem code
  = ([MakeDirs (py "./solutions"); WriteFile (solution_path i) code;
      Print (MsgWritten (i + 1) (solution_path i));
      SubprocessRun [py "python"; solution_path i] (input_data render problem) 10]
       ++ trace (validation_logic render i problem out err), inr tt).
Proof.
  intros Hm Hw Hc Hle.
  destruct (validation_logic_run render i problem out err) as [t [E _]].
  unfold execute, try_body. run_M. rewrite Hm, Hw, Hc.
  apply Z.leb_le in Hle. rewrite Hle. cbn. rewrite E. reflexivity.
Qed.

(** The candidate was still running at the timeout. *)
Lemma execute_timeout render w i problem code elapsed out err :
  makedirs w i (py "./solutions") = None ->
  write_file w i (solution_path i) code = None ->
  child w i [py "python"; solution_path i] (input_data render problem)
  = Runs elapsed out err ->
  (forall x, elapsed = Some x -> 10 < x) ->
  execute render w i problem code
  = ([MakeDirs (py "./solutions"); WriteFile (solution_path i) code;
      Print (MsgWritten (i + 1) (solution_path i));
      SubprocessRun [py "python"; solution_path i] (input_data render problem) 10;
      KillChild; Print (MsgTimedOut (i + 1))], inr tt).
Proof.
  intros Hm Hw Hc Hlt.
  unfold execute, try_body. run_M. rewrite Hm, Hw, Hc.
  destruct elapsed as [x|]; [|reflexivity].
  specialize (Hlt x eq_refl). apply Z.leb_gt in Hlt. rewrite Hlt. reflexivity.
Qed.

(** An exception in the [try] body ends in the matching [except] clause. *)
Lemma execute_makedirs_fails render w i problem code e :
  makedirs w i (py "./solutions") = Some e ->
  execute render w i problem code
  = ([MakeDirs (py "./solutions")] ++ trace (handlers i e), inr tt).
Proof.
  intros Hm. destruct (handlers_run i e) as [m [E _]].
  unfold execute, try_body. run_M. rewrite Hm, E. reflexivity.
Qed.

Lemma execute_write_fails render w i problem code e :
  makedirs w i (py "./solutions") = None ->
  write_file w i (solution_path i) code = Some e ->
  execute render w i problem code
  = ([MakeDirs (py "./solutions"); WriteFile (solution_path i) code]
       ++ trace (handlers i e), inr tt).
Proof.
  intros Hm Hw. destruct (handlers_run i e) as [m [E _]].
  unfold execute, try_body. run_M. rewrite Hm, Hw, E. reflexivity.
Qed.

Lemma execute_spawn_fails render w i problem code e :
  makedirs w i (py "./solutions") = None ->
  write_file w i (solution_path i) code = None ->
  child w i [py "python"; solution_path i] (input_data render problem)
  = SpawnFails e ->
  execute render w i problem code
  = ([MakeDirs (py "./solutions"); WriteFile (solution_path i) code;
      Print (MsgWritten (i + 1) (solution_path i));
      SubprocessRun [py "python"; solution_path i] (input_data render problem) 10]
       ++ trace (handlers i e), inr tt).
Proof.
  intros Hm Hw Hc. destruct (handlers_run i e) as [m [E _]].
  unfold execute, try_body. run_M. rewrite Hm, Hw, Hc, E. reflexivity.
Qed.

(** Whatever happens, [execute] returns, with one outcome on record. *)
Lemma execute_run render w i problem code :
  exists t o, execute render w i problem code = (t, inr tt)
    /\ outcomes t = [o]
    /\ count is_llm_invoke t = 0%nat
    /\ count (is_sleep 20) t = 0%nat
    /\ ((exists e, o = outcome_of_exception e) \/ o = FAIL_RUNTIME_ERROR
        \/ exists out, o = verdict_clean render problem out).
Proof.
  assert (Hh : forall e pre,
    outcomes pre = [] -> count is_llm_invoke pre = 0%nat ->
    count (is_sleep 20) pre = 0%nat ->
    exists t o, (pre ++ trace (handlers i e), inr tt) = (t, @inr exn unit tt)
      /\ outcomes t = [o]
      /\ count is_llm_invoke t = 0%nat
      /\ count (is_sleep 20) t = 0%nat
      /\ ((exists e, o = outcome_of_exception e) \/ o = FAIL_RUNTIME_ERROR
          \/ exists out, o = verdict_clean render problem out)).
  { intros e pre Ho Hi Hs. destruct (handlers_facts i e) as [Ho' [Hi' Hs']].
    eexists _, _. split; [reflexivity|].
    rewrite outcomes_app, !count_app, Ho, Hi, Hs, Ho', Hi', Hs'.
    repeat split. eauto. }
  destruct (makedirs w i (py "./solutions")) as [e|] eqn:Hm.
  { rewrite (execute_makedirs_fails _ _ _ _ _ _ Hm). apply Hh; reflexivity. }
  destruct (write_file w i (solution_path i) code) as [e|] eqn:Hw.
  { rewrite (execute_write_fails _ _ _ _ _ _ Hm Hw). apply Hh; reflexivity. }
  destruct (child w i [py "python"; solution_path i] (input_data render problem))
    as [e|elapsed out err] eqn:Hc.
  { rewrite (execute_spawn_fails _ _ _ _ _ _ Hm Hw Hc). apply Hh; reflexivity. }
  assert (Ht : forall t, t = [MakeDirs (py "./solutions");
      WriteFile (solution_path i) code;
      Print (MsgWritten (i + 1) (solution_path i));
      SubprocessRun [py "python"; solution_path i] (input_data render problem) 10;
      KillChild; Print (MsgTimedOut (i + 1))] ->
    exists t' o, (t, inr tt) = (t', @inr exn unit tt)
      /\ outcomes t' = [o]
      /\ count is_llm_invoke t' = 0%nat
      /\ count (is_sleep 20) t' = 0%nat
      /\ ((exists e, o = outcome_of_exception e) \/ o = FAIL_RUNTIME_ERROR
          \/ exists out, o = verdict_clean render problem out)).
  { intros t ->. eexists _, _. repeat split.
    left. exists (TimeoutExpired [] []). reflexivity. }
  destruct elapsed as [x|].
  - destruct (Z.leb_spec x 10) as [Hle|Hgt].
    + rewrite (execute_completed _ _ _ _ _ _ _ _ Hm Hw Hc Hle).
      destruct (validation_logic_run render i problem out err)
        as [t [-> [Ho [_ [Hi [Hs _]]]]]].
      cbn [trace fst]. eexists _, _. split; [reflexivity|].
      rewrite outcomes_app, !count_app, Ho, Hi, Hs.
      repeat split. destruct (truthy (strip err)); eauto.
    + erewrite execute_timeout by (try eassumption; intros ? [= <-]; exact Hgt).
      apply Ht. reflexivity.
  - erewrite execute_timeout by (try eassumption; discriminate).
    apply Ht. reflexivity.
Qed.

(** ** One problem *)

Lemma iteration_exhausted render w n i problem :
  result (generate w n i
            (dict_get problem (py "query") (JStr (py "No query provided."))))
  = inr None ->
  iteration render w n i problem
  = (trace (generate w n i
              (dict_get problem (py "query") (JStr (py "No query provided.")))),
     inr tt).
Proof.
  intros H. unfold iteration.
  destruct (generate w n i _) as [tg [e|[raw|]]]; cbn in H; try discriminate.
  run_M. rewrite app_nil_r. reflexivity.
Qed.

Lemma iteration_generated render w n i problem raw :
  result (generate w n i
            (dict_get problem (py "query") (JStr (py "No query provided."))))
  = inr (Some raw) ->
  stdout_encodes w (clean_code raw) = true ->
  iteration render w n i problem
  = (trace (generate w n i
              (dict_get problem (py "query") (JStr (py "No query provided."))))
       ++ [Print (MsgGeneratedCode (i + 1) (clean_code raw))]
       ++ trace (execute render w i problem (clean_code raw))
       ++ (if i <? n - 1 then [Print MsgWaitingNext; Sleep 20] else []),
     inr tt).
Proof.
  intros H Hp. unfold iteration, print_generated_code.
  destruct (generate w n i _) as [tg [e|[raw'|]]]; cbn in H; try discriminate.
  injection H as ->.
  destruct (execute_run render w i problem (clean_code raw)) as [t [o [E _]]].
  run_M. rewrite Hp, E.
  destruct (i <? n - 1); cbn; rewrite ?app_nil_r; reflexivity.
Qed.

(** The generated code cannot be printed: the pass ends at line 99 with
    the exception, which nothing catches. *)
Lemma iteration_unprintable render w n i problem raw :
  result (generate w n i
            (dict_get problem (py "query") (JStr (py "No query provided."))))
  = inr (Some raw) ->
  stdout_encodes w (clean_code raw) = false ->
  iteration render w n i problem
  = (trace (generate w n i
              (dict_get problem (py "query") (JStr (py "No query provided."))))
       ++ [Print (MsgGeneratedHeader (i + 1))],
     inl (UnicodeEncodeError (clean_code raw))).
Proof.
  intros H Hp. unfold iteration, print_generated_code.
  destruct (generate w n i _) as [tg [e|[raw'|]]]; cbn in H; try discriminate.
  injection H as ->. run_M. rewrite Hp. reflexivity.
Qed.

(** The three ways one pass can go. *)
Lemma iteration_cases render w n i problem :
  let generated :=
    generate w n i
      (dict_get problem (py "query") (JStr (py "No query provided."))) in
  (result generated = inr None
   /\ iteration render w n i problem = (trace generated, inr tt))
  \/ (exists raw,
        result generated = inr (Some raw)
        /\ stdout_encodes w (clean_code raw) = true
        /\ iteration render w n i problem
           = (trace generated
                ++ [Print (MsgGeneratedCode (i + 1) (clean_code raw))]
                ++ trace (execute render w i problem (clean_code raw))
                ++ (if i <? n - 1 then [Print MsgWaitingNext; Sleep 20] else []),
              inr tt))
  \/ (exists raw,
        result generated = inr (Some raw)
        /\ stdout_encodes w (clean_code raw) = false
        /\ iteration render w n i problem
           = (trace generated ++ [Print (MsgGeneratedHeader (i + 1))],
              inl (UnicodeEncodeError (clean_code raw)))).
Proof.
  intros generated. subst generated.
  destruct (generate_result w n i
    (dict_get problem (py "query") (JStr (py "No query provided."))))
    as [[raw|] Hg].
  - destruct (stdout_encodes w (clean_code raw)) eqn:Hp.
    + right. left. exists raw. split; [exact Hg|]. split; [exact Hp|].
      apply iteration_generated; assumption.
    + right. right. exists raw. split; [exact Hg|]. split; [exact Hp|].
      apply iteration_unprintable; assumption.
  - left. split; [exact Hg|]. apply iteration_exhausted, Hg.
Qed.

(** One pass calls the service at most three times; when it returns it
    has put one outcome on record, when it does not it has put none. *)
Lemma iteration_run render w n i problem :
  exists t r, iteration render w n i problem = (t, r)
    /\ (count is_llm_invoke t <= 3)%nat
    /\ match r with
       | inr _ => exists o, outcomes t = [o]
       | inl _ => outcomes t = []
       end.
Proof.
  pose proof (generate_outcomes w n i
    (dict_get problem (py "query") (JStr (py "No query provided.")))) as Ho.
  destruct (generate_events w n i
    (dict_get problem (py "query") (JStr (py "No query provided."))))
    as [_ [_ Hi]].
  destruct (iteration_cases render w n i problem)
    as [[Hg ->]|[(raw & Hg & Hp & ->)|(raw & Hg & Hp & ->)]];
    rewrite Hg in Ho; eexists _, _; (split; [reflexivity|]).
  - split; [exact Hi|]. eauto.
  - destruct (execute_run render w i problem (clean_code raw))
      as [t [o [-> [Ho' [Hi' _]]]]].
    cbn [trace fst]. rewrite !outcomes_app, !count_app, Ho, Ho', Hi'.
    split; [destruct (i <? n - 1); cbn; lia|].
    exists o. destruct (i <? n - 1); reflexivity.
  - rewrite !outcomes_app, !count_app, Ho. split; [cbn; lia|reflexivity].
Qed.

(** ** The loop over the problems *)

(** A value that is not a [dict] ends the run at line 59. *)
Lemma loop_body_not_dict render w n i problem :
  (forall d, problem <> JObject d) ->
  exists e, loop_body render w n i problem = ([], inl e).
Proof.
  intros H. destruct problem; try (eexists; reflexivity).
  exfalso. exact (H _ eq_refl).
Qed.

Lemma loop_body_run render w n i problem :
  exists t r, loop_body render w n i problem = (t, r)
    /\ (count is_llm_invoke t <= 3)%nat
    /\ match r with
       | inr _ => exists o, outcomes t = [o]
       | inl _ => outcomes t = []
       end.
Proof.
  destruct problem;
    try (eexists [], _; split; [reflexivity|]; split; [cbn; lia|reflexivity]).
  apply iteration_run.
Qed.

(** The loop goes on after a pass that returns and ends with a pass that
    does not. *)
Lemma for_problems_cons render w n i problem rest :
  for_problems render w n i (problem :: rest)
  = match result (loop_body render w n i problem) with
    | inr _ =>
        (trace (loop_body render w n i problem)
           ++ trace (for_problems render w n (i + 1) rest),
         result (for_problems render w n (i + 1) rest))
    | inl e => (trace (loop_body render w n i problem), inl e)
    end.
Proof.
  cbn [for_problems].
  destruct (loop_body render w n i problem) as [t [e|[]]]; run_M;
    [reflexivity|].
  destruct (for_problems render w n (i + 1) rest) as [t' r]. reflexivity.
Qed.


Lemma truthy_false (s : pystr) : truthy s = false <-> s = [].
Proof. destruct s; split; intros H; try reflexivity; discriminate. Qed.



(** ** C1, C2, C10: the decision after execution *)








(** ** C4: the retry controller *)




(** ** C5: the pause between problems *)

(** What one pass of the loop body adds to the pauses between problems. *)
Lemma iteration_delays render w n i problem :
  inter_problem_delays (trace (iteration render w n i problem))
  = match result (generate w n i
             (dict_get problem (py "query") (JStr (py "No query provided.")))) with
    | inr (Some raw) =>
        if stdout_encodes w (clean_code raw) && (i <? n - 1)
        then 1%nat else 0%nat
    | _ => 0%nat
    end.
Proof.
  unfold inter_problem_delays.
  destruct (generate_events w n i
    (dict_get problem (py "query") (JStr (py "No query provided."))))
    as [_ [Hs _]].
  destruct (iteration_cases render w n i problem)
    as [[Hg ->]|[(raw & Hg & Hp & ->)|(raw & Hg & Hp & ->)]];
    rewrite Hg, ?Hp; cbn [trace fst andb].
  - exact Hs.
  - destruct (execute_run render w i problem (clean_code raw))
      as [t [o [-> [_ [_ [Hs' _]]]]]].
    cbn [trace fst]. rewrite !count_app, Hs, Hs'.
    destruct (i <? n - 1); reflexivity.
  - rewrite count_app, Hs. reflexivity.
Qed.

Lemma loop_body_delays render w n i problem :
  (inter_problem_delays (trace (loop_body render w n i problem))
   <= if (i <? n - 1)%Z then 1 else 0)%nat.
Proof.
  destruct problem; try (cbn; destruct (i <? n - 1); lia).
  cbn [loop_body]. rewrite iteration_delays.
  destruct (result (generate w n i _)) as [e|[raw|]];
    try (destruct (i <? n - 1); lia).
  destruct (stdout_encodes w (clean_code raw)); destruct (i <? n - 1); cbn; lia.
Qed.

(** When every problem is a [dict] whose generation succeeds and whose
    code can be printed, the loop pauses after each problem but the last. *)
Lemma for_problems_delays_generated render w n i problems :
  n = i + Z.of_nat (length problems) ->
  (forall k problem,
     problems !! k = Some problem ->
     exists fields raw,
       problem = JObject fields
       /\ result (generate w n (i + Z.of_nat k)
                    (dict_get fields (py "query")
                       (JStr (py "No query provided."))))
          = inr (Some raw)
       /\ stdout_encodes w (clean_code raw) = true) ->
  inter_problem_delays (trace (for_problems render w n i problems))
  = (length problems - 1)%nat.
Proof.
  revert i. induction problems as [|problem rest IH]; intros i Hn Hgen.
  - reflexivity.
  - destruct (Hgen 0%nat problem eq_refl) as (fields & raw & -> & Hraw & Hp).
    rewrite Z.add_0_r in Hraw.
    assert (Hr : result (iteration render w n i fields) = inr tt)
      by (rewrite (iteration_generated _ _ _ _ _ _ Hraw Hp); reflexivity).
    rewrite for_problems_cons. cbn [loop_body]. rewrite Hr. cbn [trace fst].
    unfold inter_problem_delays in *. rewrite count_app.
    fold (inter_problem_delays (trace (iteration render w n i fields))).
    rewrite iteration_delays, Hraw, Hp. cbn [andb].
    rewrite (IH (i + 1)); cycle 1.
    { cbn [length] in Hn. lia. }
    { intros k p Hk. destruct (Hgen (S k) p Hk) as (f' & raw' & -> & Hraw' & Hp').
      exists f', raw'. split; [reflexivity|]. split; [|exact Hp'].
      rewrite <- Hraw'. f_equal. f_equal. lia. }
    cbn [length] in *.
    destruct (Z.ltb_spec i (n - 1)); destruct rest; cbn [length] in *; lia.
Qed.

(** C5 at two problems with the service down: both are skipped after
    three failed attempts and no pause of 20 separates them, where the
    specification has one. *)
Theorem C5_no_delay_after_exhaustion :
  outcomes (trace (for_problems render_scalars service_down 2 0
                     [JObject sign_problem; JObject sign_problem]))
  = [GENERATION_EXHAUSTED; GENERATION_EXHAUSTED]
  /\ inter_problem_delays
       (trace (for_problems render_scalars service_down 2 0
                 [JObject sign_problem; JObject sign_problem]))
     = 0%nat.
Proof. split; reflexivity. Qed.

(** ** C6: persisting and running the candidate *)

(** C6. [execute] always returns to the loop, with one outcome on record.
    A failure to create the directory or to write the file, and a failure
    to start the child, end in the [except] clause of their exception.  A
    child that is still running after 10 time units is stopped and
    reported as timed out, and nothing of what it had written is shown or
    validated. *)
Theorem C6_execute_captures_failures render w i problem code :
  let dir := py "./solutions" in
  let command := [py "python"; solution_path i] in
  let t := trace (execute render w i problem code) in
  result (execute render w i problem code) = inr tt
  /\ (exists o, outcomes t = [o])
  /\ (forall e,
        makedirs w i dir = Some e
        \/ (makedirs w i dir = None
            /\ write_file w i (solution_path i) code = Some e) ->
        outcomes t = [outcome_of_exception e]
        /\ count is_subprocess_run t = 0%nat)
  /\ (forall e,
        makedirs w i dir = None ->
        write_file w i (solution_path i) code = None ->
        child w i command (input_data render problem) = SpawnFails e ->
        outcomes t = [outcome_of_exception e])
  /\ (forall elapsed stdout stderr,
        makedirs w i dir = None ->
        write_file w i (solution_path i) code = None ->
        child w i command (input_data render problem)
        = Runs elapsed stdout stderr ->
        (forall x, elapsed = Some x -> 10 < x) ->
        t = [MakeDirs dir; WriteFile (solution_path i) code;
             Print (MsgWritten (i + 1) (solution_path i));
             SubprocessRun command (input_data render problem) 10;
             KillChild; Print (MsgTimedOut (i + 1))]
        /\ outcomes t = [EXECUTION_TIMEOUT]).
Proof.
  intros dir command t. subst t.
  split; [|split; [|split; [|split]]].
  - destruct (execute_run render w i problem code) as [t [o [-> _]]].
    reflexivity.
  - destruct (execute_run render w i problem code) as [t [o [-> [Ho _]]]].
    exists o. exact Ho.
  - intros e [Hm|[Hm Hw]]; destruct (handlers_run i e) as [m [Hh Ho]].
    + rewrite (execute_makedirs_fails _ _ _ _ _ _ Hm), Hh.
      cbn [trace fst app]. unfold outcomes. cbn [omap list_omap].
      change (outcome_of (MakeDirs (py "./solutions"))) with (@None outcome).
      rewrite Ho. split; reflexivity.
    + rewrite (execute_write_fails _ _ _ _ _ _ Hm Hw), Hh.
      cbn [trace fst app]. unfold outcomes. cbn [omap list_omap].
      change (outcome_of (MakeDirs (py "./solutions"))) with (@None outcome).
      change (outcome_of (WriteFile (solution_path i) code)) with (@None outcome).
      rewrite Ho. split; reflexivity.
  - intros e Hm Hw Hc. subst dir command.
    rewrite (execute_spawn_fails _ _ _ _ _ _ Hm Hw Hc).
    destruct (handlers_facts i e) as [Ho _].
    cbn [trace fst]. rewrite outcomes_app, Ho. reflexivity.
  - intros elapsed stdout stderr Hm Hw Hc Hlt. subst dir command.
    rewrite (execute_timeout _ _ _ _ _ _ _ _ Hm Hw Hc Hlt).
    split; reflexivity.
Qed.

(** C6 at a child that never ends and had written some output. *)
Lemma C6_timeout_witness :
  outcomes (trace (execute render_scalars
    (steady_world (inr sign_program) (Runs None (py "partial output") []))
    0 sign_problem sign_program))
  = [EXECUTION_TIMEOUT].
Proof.
  destruct (C6_execute_captures_failures render_scalars
    (steady_world (inr sign_program) (Runs None (py "partial output") []))
    0 sign_problem sign_program) as (_ & _ & _ & _ & H).
  apply (H None (py "partial output") []).
  - reflexivity.
  - reflexivity.
  - reflexivity.
  - discriminate.
Defined.

(** ** C7: one outcome per problem *)

(** C7 at two runs over two problems.  In the first the generated code
    holds a character that [sys.stdout] cannot encode: line 99 raises,
    outside every [try].  In the second the first file holds an array:
    line 59 raises, outside every [try].  Both runs end there with status
    1: the problem gets no outcome, the second problem is never processed
    and no summary is printed. *)
Theorem C7_exception_outside_try_ends_run :
  main render_scalars ascii_console [py "main.py"; py "./json"]
  = ([Print (MsgLoading (py "./json")); Print (MsgFound 2 60);
      Print (MsgProcessing 1 2 1 3); LlmInvoke (JStr (py "print sign"));
      Print (MsgGeneratedHeader 1)], 1)
  /\ main render_scalars array_file [py "main.py"; py "./json"]
     = ([Print (MsgLoading (py "./json")); Print (MsgFound 2 60)], 1).
Proof. split; reflexivity. Qed.

(** ** The entry point *)

(** The loader never lets an exception out. *)
Lemma load_files_result w files acc :
  exists l, result (load_files w files acc) = inr l.
Proof.
  revert acc. induction files as [|file_path rest IH]; intros acc.
  - exists acc. reflexivity.
  - cbn [load_files].
    destruct (json_load w file_path) as [e|data]; run_M.
    + destruct e; cbn;
        destruct (IH acc) as [l Hl];
        destruct (load_files w rest acc) as [t r]; cbn in Hl; subst r;
        exists l; reflexivity.
    + destruct (IH (acc ++ [data])) as [l Hl];
        destruct (load_files w rest (acc ++ [data])) as [t r]; cbn in Hl; subst r;
        exists l; reflexivity.
Qed.

Lemma parse_json_directory_result w directory_path :
  exists l, result (parse_json_directory_to_dicts w directory_path) = inr l.
Proof.
  unfold parse_json_directory_to_dicts.
  destruct (is_dir w directory_path); cbn [negb].
  - apply load_files_result.
  - exists []. reflexivity.
Qed.




(** The end-to-end scenario of the specification. *)
Example end_to_end_pass :
  outcomes (trace (iteration render_scalars
    (steady_world (inr sign_program) (Runs (Some 1) (py ("POSITIVE" ++ LF)) []))
    1 0 sign_problem)) = [PASS].
Proof. reflexivity. Qed.

Example end_to_end_mismatch :
  outcomes (trace (iteration render_scalars
    (steady_world (inr sign_program) (Runs (Some 1) (py ("NEGATIVE" ++ LF)) []))
    1 0 sign_problem)) = [FAIL_MISMATCH].
Proof. reflexivity. Qed.

(** A whole run over a directory: the file that is not JSON is passed
    over, both problems get their outcome, one pause separates them and
    the run ends with status 0. *)
Example whole_run :
  let '(t, status) := main render_scalars two_problems [py "main.py"; py "./json"] in
  outcomes t = [PASS; SKIPPED_NO_EXPECTED]
  /\ inter_problem_delays t = 1%nat
  /\ count is_llm_invoke t = 2%nat
  /\ status = 0.
Proof. vm_compute. repeat split. Qed.

(** * Further properties *)

(** ** Further properties of the text functions *)

Lemma lstrip_sublist (s : pystr) : lstrip s `sublist_of` s.
Proof.
  destruct (lstrip_split s) as [ws [E _]]. rewrite E at 2.
  apply sublist_inserts_l. reflexivity.
Qed.

Lemma rstrip_sublist (s : pystr) : rstrip s `sublist_of` s.
Proof.
  destruct (rstrip_split s) as [ws [E _]]. rewrite E at 2.
  apply sublist_inserts_r. reflexivity.
Qed.

Lemma strip_sublist (s : pystr) : strip s `sublist_of` s.
Proof.
  unfold strip. etransitivity; [apply rstrip_sublist | apply lstrip_sublist].
Qed.

(** Replacing by nothing only deletes characters. *)
Lemma replace_scan_sublist (old : pystr) (skip : nat) (s : pystr) :
  replace_scan old [] skip s `sublist_of` s.
Proof.
  revert skip. induction s as [|c s IH]; intros skip; [reflexivity|].
  cbn [replace_scan]. destruct skip as [|k].
  - destruct (startswith (c :: s) old).
    + cbn [app]. apply sublist_cons, IH.
    + apply sublist_skip, IH.
  - apply sublist_cons, IH.
Qed.

Lemma replace_nothing_sublist (s old : pystr) :
  old <> [] -> replace s old [] `sublist_of` s.
Proof.
  intros H. unfold replace. destruct old as [|o old]; [congruence|].
  apply replace_scan_sublist.
Qed.

(** X18. [clean_code] only deletes characters: its result is the raw text
    with some characters left out, in the same order, and so is never
    longer than the raw text. *)
Theorem clean_code_only_deletes (raw : pystr) :
  clean_code raw `sublist_of` raw
  /\ (length (clean_code raw) <= length raw)%nat.
Proof.
  assert (H : clean_code raw `sublist_of` raw).
  { unfold clean_code.
    etransitivity; [apply strip_sublist|].
    etransitivity; [apply replace_nothing_sublist; discriminate|].
    etransitivity; [apply replace_nothing_sublist; discriminate|].
    apply strip_sublist. }
  split; [exact H | apply sublist_length, H].
Qed.

Lemma clean_code_fence_free (raw : pystr) : contains (clean_code raw) fence = false.
Proof.
  destruct (contains (clean_code raw) fence) eqn:E; [|reflexivity].
  apply contains_split in E as [a [b E]].
  exfalso. exact (clean_code_no_fence raw a b E).
Qed.

Lemma clean_code_trimmed (raw : pystr) : strip (clean_code raw) = clean_code raw.
Proof. unfold clean_code. apply strip_idempotent. Qed.

(** X19. Cleaning a text that is already clean changes nothing. *)
Theorem clean_code_idempotent (raw : pystr) :
  clean_code (clean_code raw) = clean_code raw.
Proof.
  pose proof (clean_code_fence_free raw) as Hf.
  pose proof (clean_code_trimmed raw) as Ht.
  unfold clean_code at 1. rewrite Ht.
  assert (Hp : contains (clean_code raw) fence_python = false).
  { destruct (contains (clean_code raw) fence_python) eqn:E; [|reflexivity].
    apply contains_fence_python in E. congruence. }
  rewrite (replace_absent _ fence_python) by (exact Hp || discriminate).
  rewrite (replace_absent _ fence) by (exact Hf || discriminate).
  exact Ht.
Qed.

(** X17. [validate_solution] is an equivalence on texts: every text
    matches itself, the order of the two arguments does not matter, and
    two texts that match a third match each other. *)
Theorem validate_solution_equivalence (a b c : pystr) :
  validate_solution a a = true
  /\ validate_solution a b = validate_solution b a
  /\ (validate_solution a b = true -> validate_solution b c = true ->
      validate_solution a c = true).
Proof.
  unfold validate_solution. split; [|split].
  - apply pystr_eqb_eq. reflexivity.
  - destruct (pystr_eqb (strip a) (strip b)) eqn:E.
    + apply pystr_eqb_eq in E. symmetry. apply pystr_eqb_eq. congruence.
    + destruct (pystr_eqb (strip b) (strip a)) eqn:E'; [|reflexivity].
      apply pystr_eqb_eq in E'. symmetry in E'. apply pystr_eqb_eq in E'.
      congruence.
  - rewrite !pystr_eqb_eq. congruence.
Qed.

(** X17 at ["5 "], [" 5"] and ["5"]. *)
Lemma validate_solution_equivalence_witness :
  validate_solution (py "5 ") (py "5") = true.
Proof.
  apply (proj2 (proj2 (validate_solution_equivalence (py "5 ") (py " 5") (py "5"))));
    reflexivity.
Defined.

Lemma py_inj (s t : string) : py s = py t -> s = t.
Proof.
  unfold py. intros H.
  assert (Hl : list_ascii_of_string s = list_ascii_of_string t).
  { revert H. generalize (list_ascii_of_string s) (list_ascii_of_string t).
    intros l. induction l as [|x l IH]; intros [|y k] H; try discriminate.
    - reflexivity.
    - cbn in H. injection H as Hx Hk.
      apply (f_equal ascii_of_N) in Hx. rewrite !ascii_N_embedding in Hx.
      f_equal; auto. }
  rewrite <- (string_of_list_ascii_of_string s),
          <- (string_of_list_ascii_of_string t), Hl.
  reflexivity.
Qed.

Lemma decimal_inj (x y : Z) : decimal x = decimal y -> x = y.
Proof.
  unfold decimal. intros H. apply py_inj in H.
  apply DecimalZ.to_int_inj.
  assert (Hs : Some (Z.to_int x) = Some (Z.to_int y)).
  { rewrite <- !NilEmpty.isi, H. reflexivity. }
  congruence.
Qed.

Lemma solution_path_inj (i j : Z) :
  solution_path i = solution_path j -> i = j.
Proof.
  unfold solution_path. intros H.
  apply app_inv_head in H. apply app_inv_tail in H.
  apply decimal_inj in H. lia.
Qed.

(** X11. Problems at different positions have different solution files. *)
Theorem distinct_problems_distinct_files (i j : Z) :
  i <> j -> solution_path i <> solution_path j.
Proof. intros H E. apply H, solution_path_inj, E. Qed.

(** X11 at the first two problems. *)
Lemma distinct_files_witness : solution_path 0 <> solution_path 1.
Proof. apply (distinct_problems_distinct_files 0 1). lia. Defined.

(** ** The loader *)

Lemma load_files_run w files acc :
  load_files w files acc
  = (omap (fun file_path =>
             match json_load w file_path with
             | inl e =>
                 Some (Print (match e with
                              | JSONDecodeError _ => MsgSkippingMalformed file_path
                              | OSError _ => MsgCouldNotRead file_path e
                              | _ => MsgUnexpected file_path e
                              end))
             | inr _ => None
             end) files,
     inr (acc ++ omap (fun file_path =>
                         match json_load w file_path with
                         | inl _ => None
                         | inr data => Some data
                         end) files)).
Proof.
  revert acc. induction files as [|file_path rest IH]; intros acc.
  - cbn. rewrite app_nil_r. reflexivity.
  - cbn [load_files omap list_omap].
    destruct (json_load w file_path) as [e|data]; run_M.
    + destruct e; cbn; rewrite IH; reflexivity.
    + rewrite IH, <- app_assoc. reflexivity.
Qed.





(** ** The retry loop *)

(** X5. The retry loop calls the service at least once and sleeps exactly
    once fewer than it calls, hence at most twice for one problem. *)
Theorem retry_sleeps_one_less_than_calls w n i query :
  count is_llm_invoke (trace (generate w n i query))
  = S (count (is_sleep retry_delay) (trace (generate w n i query)))
  /\ (count (is_sleep retry_delay) (trace (generate w n i query)) <= 2)%nat.
Proof. generate_cases w i query; vm_compute; split; lia. Qed.



(** ** What one pass exchanges with the outside *)

Lemma omap_none_of_count {A : Type} (f : event -> bool) (g : event -> option A)
    (t : list event) :
  (forall e, f e = false -> g e = None) ->
  count f t = 0%nat -> omap g t = [].
Proof.
  intros Hfg. unfold count. induction t as [|e t IH]; [reflexivity|].
  cbn [List.filter omap list_omap]. destruct (f e) eqn:E; [discriminate|].
  intros H. rewrite (Hfg e E). exact (IH H).
Qed.

Lemma generate_queries w n i query :
  exists k, omap invoked_query (trace (generate w n i query))
            = query :: replicate k query.
Proof.
  generate_cases w i query;
    [exists 2%nat|exists 2%nat|exists 1%nat|exists 0%nat]; reflexivity.
Qed.

(** X7. Every call of the service made for a problem carries the query of
    that problem, or ["No query provided."] when the problem has none, and
    at least one call is made. *)
Theorem every_call_carries_the_query render w n i problem :
  exists k,
    omap invoked_query (trace (iteration render w n i problem))
    = replicate (S k)
        (dict_get problem (py "query") (JStr (py "No query provided."))).
Proof.
  destruct (generate_queries w n i
    (dict_get problem (py "query") (JStr (py "No query provided."))))
    as [k Hq].
  exists k. cbn [replicate].
  destruct (iteration_cases render w n i problem)
    as [[Hg ->]|[(raw & Hg & Hp & ->)|(raw & Hg & Hp & ->)]]; cbn [trace fst].
  - exact Hq.
  - destruct (execute_run render w i problem (clean_code raw))
      as [t [o [-> [_ [Hi _]]]]].
    cbn [trace fst]. rewrite !omap_app, Hq.
    rewrite (omap_none_of_count is_llm_invoke invoked_query t)
      by (exact Hi || (intros []; (discriminate || reflexivity))).
    destruct (i <? n - 1); cbn; rewrite app_nil_r; reflexivity.
  - rewrite omap_app, Hq. cbn. rewrite app_nil_r. reflexivity.
Qed.

Lemma execute_written render w i problem code :
  omap written (trace (execute render w i problem code))
  = match makedirs w i (py "./solutions") with
    | Some _ => []
    | None => [(solution_path i, code)]
    end.
Proof.
  assert (Hh : forall e, omap written (trace (handlers i e)) = []).
  { intros e. destruct e; reflexivity. }
  destruct (makedirs w i (py "./solutions")) as [e|] eqn:Hm.
  { rewrite (execute_makedirs_fails _ _ _ _ _ _ Hm). cbn [trace fst].
    rewrite omap_app, Hh. reflexivity. }
  destruct (write_file w i (solution_path i) code) as [e|] eqn:Hw.
  { rewrite (execute_write_fails _ _ _ _ _ _ Hm Hw). cbn [trace fst].
    rewrite omap_app, Hh. reflexivity. }
  destruct (child w i [py "python"; solution_path i] (input_data render problem))
    as [e|elapsed out err] eqn:Hc.
  { rewrite (execute_spawn_fails _ _ _ _ _ _ Hm Hw Hc). cbn [trace fst].
    rewrite omap_app, Hh. reflexivity. }
  destruct elapsed as [x|].
  - destruct (Z.leb_spec x 10) as [Hle|Hgt].
    + rewrite (execute_completed _ _ _ _ _ _ _ _ Hm Hw Hc Hle).
      destruct (validation_logic_run render i problem out err)
        as [t [-> [_ [He _]]]].
      cbn [trace fst]. rewrite omap_app.
      rewrite (omap_none_of_count is_execution written t)
        by (exact He || (intros []; (discriminate || reflexivity))).
      reflexivity.
    + erewrite execute_timeout by (try eassumption; intros ? [= <-]; exact Hgt).
      reflexivity.
  - erewrite execute_timeout by (try eassumption; discriminate).
    reflexivity.
Qed.

Lemma iteration_written render w n i problem :
  omap written (trace (iteration render w n i problem))
  = match result (generate w n i
             (dict_get problem (py "query") (JStr (py "No query provided.")))) with
    | inr (Some raw) =>
        if stdout_encodes w (clean_code raw) then
          match makedirs w i (py "./solutions") with
          | Some _ => []
          | None => [(solution_path i, clean_code raw)]
          end
        else []
    | _ => []
    end.
Proof.
  destruct (generate_events w n i
    (dict_get problem (py "query") (JStr (py "No query provided."))))
    as [He _].
  assert (Hgw : omap written (trace (generate w n i
    (dict_get problem (py "query") (JStr (py "No query provided."))))) = []).
  { apply (omap_none_of_count is_execution); [|exact He].
    intros []; (discriminate || reflexivity). }
  destruct (iteration_cases render w n i problem)
    as [[Hg ->]|[(raw & Hg & Hp & ->)|(raw & Hg & Hp & ->)]];
    rewrite Hg, ?Hp; cbn [trace fst].
  - exact Hgw.
  - rewrite !omap_app, Hgw, execute_written.
    destruct (makedirs w i (py "./solutions")); destruct (i <? n - 1); reflexivity.
  - rewrite omap_app, Hgw. reflexivity.
Qed.

(** X9. One pass writes at most one file: the solution file of its own
    index, holding the cleaned text of the generated answer, which is
    trimmed and free of fences. *)
Theorem pass_writes_only_its_cleaned_candidate render w n i problem :
  (length (omap written (trace (iteration render w n i problem))) <= 1)%nat
  /\ Forall (fun file =>
               fst file = solution_path i
               /\ contains (snd file) fence = false
               /\ strip (snd file) = snd file
               /\ exists raw,
                    result (generate w n i
                      (dict_get problem (py "query")
                         (JStr (py "No query provided.")))) = inr (Some raw)
                    /\ snd file = clean_code raw)
            (omap written (trace (iteration render w n i problem))).
Proof.
  rewrite iteration_written.
  destruct (result (generate w n i _)) as [e|[raw|]];
    try (split; [cbn; lia | constructor]).
  destruct (stdout_encodes w (clean_code raw));
    [|split; [cbn; lia | constructor]].
  destruct (makedirs w i (py "./solutions"));
    [split; [cbn; lia | constructor]|].
  split; [cbn; lia|].
  constructor; [|constructor]. cbn [fst snd].
  split; [reflexivity|]. split; [apply clean_code_fence_free|].
  split; [apply clean_code_trimmed|]. eauto.
Qed.




(** ** Whole runs *)

Lemma for_problems_delays_bound render w n i problems :
  n = i + Z.of_nat (length problems) ->
  (inter_problem_delays (trace (for_problems render w n i problems))
   <= length problems - 1)%nat.
Proof.
  revert i. induction problems as [|problem rest IH]; intros i Hn.
  - cbn. lia.
  - rewrite for_problems_cons.
    pose proof (loop_body_delays render w n i problem) as Hb.
    specialize (IH (i + 1)). cbn [length] in *.
    assert (IH' := IH ltac:(lia)).
    destruct (result (loop_body render w n i problem)) as [e|u];
      cbn [trace fst]; unfold inter_problem_delays in *;
      rewrite ?count_app;
      destruct (Z.ltb_spec i (n - 1)); destruct rest; cbn [length] in *; lia.
Qed.

(** X15. A run over N problems pauses for 20 at most N-1 times, whatever
    the outside world does. *)
Theorem at_most_one_pause_between_problems render w problems :
  (inter_problem_delays
     (trace (for_problems render w (Z.of_nat (length problems)) 0 problems))
   <= length problems - 1)%nat.
Proof. apply for_problems_delays_bound. lia. Qed.

(** X16. When every problem is a [dict], its generation succeeds and the
    generated code can be printed, a run over N problems pauses for 20
    exactly N-1 times, whatever happens when the candidates are written
    and run. *)
Theorem pauses_when_every_generation_succeeds render w problems :
  (forall k problem,
     problems !! k = Some problem ->
     exists fields raw,
       problem = JObject fields
       /\ result (generate w (Z.of_nat (length problems)) (Z.of_nat k)
                    (dict_get fields (py "query")
                       (JStr (py "No query provided."))))
          = inr (Some raw)
       /\ stdout_encodes w (clean_code raw) = true) ->
  inter_problem_delays
    (trace (for_problems render w (Z.of_nat (length problems)) 0 problems))
  = (length problems - 1)%nat.
Proof.
  intros H. apply for_problems_delays_generated; [lia|].
  intros k problem Hk. destruct (H k problem Hk) as (fields & raw & E & Hraw & Hp).
  exists fields, raw. rewrite Z.add_0_l. auto.
Qed.

(** X16 at two problems. *)
Lemma pauses_witness :
  inter_problem_delays
    (trace (for_problems render_scalars two_problems
              (Z.of_nat (length [JObject sign_problem;
                                 JObject sign_problem_unchecked])) 0
              [JObject sign_problem; JObject sign_problem_unchecked]))
  = (length [JObject sign_problem; JObject sign_problem_unchecked] - 1)%nat.
Proof.
  apply (pauses_when_every_generation_succeeds render_scalars two_problems
           [JObject sign_problem; JObject sign_problem_unchecked]).
  intros k problem Hk.
  destruct k as [|[|k]]; [| |discriminate]; injection Hk as <-;
    eexists _, sign_program; repeat split; reflexivity.
Defined.

(** X8. A run over N problems calls the service at most 3N times. *)
Theorem at_most_three_calls_per_problem render w n i problems :
  (count is_llm_invoke (trace (for_problems render w n i problems))
   <= 3 * length problems)%nat.
Proof.
  revert i. induction problems as [|problem rest IH]; intros i.
  - cbn. lia.
  - rewrite for_problems_cons.
    destruct (loop_body_run render w n i problem) as [t [r [-> [H _]]]].
    specialize (IH (i + 1)).
    destruct r as [e|u]; cbn [trace result fst snd length];
      rewrite ?count_app; lia.
Qed.

(** The run after the argument check: the summary is printed when the
    loop returns and not when it ends with an exception. *)
Lemma run_unfold render w path problems :
  result (parse_json_directory_to_dicts w path) = inr problems ->
  run render w path
  = (Print (MsgLoading path)
       :: trace (parse_json_directory_to_dicts w path)
       ++ Print (MsgFound (Z.of_nat (length problems))
                   (Z.of_nat (length problems) * 30))
       :: trace (for_problems render w (Z.of_nat (length problems)) 0 problems)
       ++ match result (for_problems render w (Z.of_nat (length problems)) 0
                          problems) with
          | inr _ => [Print (MsgSummary (Z.of_nat (length problems)))]
          | inl _ => []
          end,
     result (for_problems render w (Z.of_nat (length problems)) 0 problems)).
Proof.
  intros H. unfold run.
  destruct (parse_json_directory_to_dicts w path) as [t r]. cbn in H. subst r.
  run_M.
  destruct (for_problems render w (Z.of_nat (length problems)) 0 problems)
    as [t' [e|[]]]; cbn; rewrite <- ?app_assoc, ?app_nil_r; reflexivity.
Qed.

Lemma loader_outcomes w path :
  outcomes (trace (parse_json_directory_to_dicts w path)) = [].
Proof.
  unfold parse_json_directory_to_dicts.
  destruct (is_dir w path); cbn [negb]; [|reflexivity].
  rewrite load_files_run. cbn [trace fst].
  induction (glob_json w path) as [|file rest IH]; [reflexivity|].
  cbn [omap list_omap]. destruct (json_load w file) as [e|data]; [|exact IH].
  destruct e; exact IH.
Qed.



(** The loop records at most one outcome for each problem, and one for
    each when it returns. *)
Lemma for_problems_outcomes_length render w n i problems :
  (length (outcomes (trace (for_problems render w n i problems)))
   <= length problems)%nat
  /\ (result (for_problems render w n i problems) = inr tt ->
      length (outcomes (trace (for_problems render w n i problems)))
      = length problems).
Proof.
  revert i. induction problems as [|problem rest IH]; intros i.
  - split; reflexivity.
  - rewrite for_problems_cons.
    destruct (loop_body_run render w n i problem) as [t [r [-> [_ Ho]]]].
    destruct (IH (i + 1)) as [IH1 IH2].
    destruct r as [e|u]; cbn [trace result fst snd length].
    + rewrite Ho. split; [cbn; lia|discriminate].
    + destruct Ho as [o Ho]. rewrite outcomes_app, length_app, Ho.
      split; [cbn; lia|]. intros Hr. rewrite (IH2 Hr). reflexivity.
Qed.

(** X4. A whole run records at most one outcome for each value the loader
    returned, and exactly one for each when it ends with status 0; the
    warnings of the loader are no outcomes. *)
Theorem run_records_one_outcome_per_loaded_problem
    render w prog path rest problems :
  result (parse_json_directory_to_dicts w path) = inr problems ->
  (length (outcomes (fst (main render w (prog :: path :: rest))))
   <= length problems)%nat
  /\ (snd (main render w (prog :: path :: rest)) = 0 ->
      length (outcomes (fst (main render w (prog :: path :: rest))))
      = length problems).
Proof.
  intros H. unfold main.
  destruct (Z.ltb_spec (Z.of_nat (length (prog :: path :: rest))) 2) as [Hlt|_].
  { cbn [length] in Hlt. lia. }
  cbn [nth fst snd]. unfold exit_status.
  rewrite (run_unfold _ _ _ _ H). cbn [trace result fst snd].
  destruct (for_problems_outcomes_length render w
              (Z.of_nat (length problems)) 0 problems) as [Hle Heq].
  assert (Hs : length (outcomes
      (Print (MsgLoading path)
         :: trace (parse_json_directory_to_dicts w path)
         ++ Print (MsgFound (Z.of_nat (length problems))
                     (Z.of_nat (length problems) * 30))
         :: trace (for_problems render w (Z.of_nat (length problems)) 0 problems)
         ++ match result (for_problems render w (Z.of_nat (length problems)) 0
                            problems) with
            | inr _ => [Print (MsgSummary (Z.of_nat (length problems)))]
            | inl _ => []
            end))
    = length (outcomes (trace (for_problems render w
                                 (Z.of_nat (length problems)) 0 problems)))).
  { change (Print (MsgLoading path) :: ?t) with ([Print (MsgLoading path)] ++ t).
    rewrite !outcomes_app, loader_outcomes.
    change (Print ?m :: ?t ++ ?u) with ([Print m] ++ t ++ u).
    rewrite !outcomes_app, !length_app.
    destruct (result (for_problems render w _ 0 problems)); cbn; lia. }
  rewrite Hs. split; [exact Hle|].
  destruct (result (for_problems render w _ 0 problems)) as [e|[]] eqn:Hr;
    [discriminate|]. intros _. apply Heq. reflexivity.
Qed.

(** X4 at the directory of two problems. *)
Lemma run_records_witness :
  length (outcomes (fst (main render_scalars two_problems
                           [py "main.py"; py "./json"])))
  = length [JObject sign_problem; JObject sign_problem_unchecked].
Proof.
  apply (run_records_one_outcome_per_loaded_problem render_scalars two_problems
           (py "main.py") (py "./json") []
           [JObject sign_problem; JObject sign_problem_unchecked]);
    reflexivity.
Defined.







Lemma loop_body_written_paths render w n i problem :
  (omap written (trace (loop_body render w n i problem))).*1 = []
  \/ (omap written (trace (loop_body render w n i problem))).*1
     = [solution_path i].
Proof.
  destruct problem; try (left; reflexivity).
  cbn [loop_body]. rewrite iteration_written.
  destruct (result (generate w n i _)) as [e|[raw|]]; auto.
  destruct (stdout_encodes w (clean_code raw)); auto.
  destruct (makedirs w i (py "./solutions")); auto.
Qed.

Lemma for_problems_written_paths render w n i problems path :
  path ∈ (omap written (trace (for_problems render w n i problems))).*1 ->
  exists k, (k < length problems)%nat /\ path = solution_path (i + Z.of_nat k).
Proof.
  revert i. induction problems as [|problem rest IH]; intros i.
  - cbn. intros H. inversion H.
  - rewrite for_problems_cons. intros H.
    assert (Hcases :
      path ∈ (omap written (trace (loop_body render w n i problem))).*1
      \/ path ∈ (omap written
                   (trace (for_problems render w n (i + 1) rest))).*1).
    { destruct (result (loop_body render w n i problem)); cbn [trace fst] in H.
      - left. exact H.
      - rewrite omap_app, fmap_app in H. apply elem_of_app in H. exact H. }
    destruct Hcases as [Hh|Hr].
    + destruct (loop_body_written_paths render w n i problem) as [E|E];
        rewrite E in Hh.
      * inversion Hh.
      * apply list_elem_of_singleton in Hh as ->. exists 0%nat.
        split; [cbn; lia|]. rewrite Z.add_0_r. reflexivity.
    + destruct (IH (i + 1) Hr) as [k [Hk ->]]. exists (S k).
      split; [cbn; lia|]. f_equal. lia.
Qed.

(** X12. Within one run no solution file is written twice. *)
Theorem no_candidate_file_written_twice render w n i problems :
  NoDup (omap written (trace (for_problems render w n i problems))).*1.
Proof.
  revert i. induction problems as [|problem rest IH]; intros i.
  - constructor.
  - rewrite for_problems_cons.
    assert (Hhere :
      NoDup (omap written (trace (loop_body render w n i problem))).*1).
    { destruct (loop_body_written_paths render w n i problem) as [E|E];
        rewrite E; [constructor|apply NoDup_singleton]. }
    destruct (result (loop_body render w n i problem)); cbn [trace fst];
      [exact Hhere|].
    rewrite omap_app, fmap_app.
    apply NoDup_app. split; [exact Hhere|split; [|apply IH]].
    intros path Hp Hrest.
    destruct (loop_body_written_paths render w n i problem) as [E|E];
      rewrite E in Hp; [inversion Hp|].
    apply list_elem_of_singleton in Hp as ->.
    apply for_problems_written_paths in Hrest as [k [_ Hk]].
    apply solution_path_inj in Hk. lia.
Qed.

(** ** The input of the candidate *)

(** The joined text is the first part followed by each further part with
    the separator in front of it. *)
Lemma join_cons (sep first : pystr) (rest : list pystr) :
  join sep (first :: rest)
  = first ++ concat (map (fun part => sep ++ part) rest).
Proof.
  revert first. induction rest as [|q rest IH]; intros first.
  - cbn. rewrite app_nil_r. reflexivity.
  - change (join sep (first :: q :: rest))
      with (first ++ sep ++ join sep (q :: rest)).
    rewrite IH. cbn [map concat]. rewrite <- app_assoc. reflexivity.
Qed.

(** X13. The candidate gets no standard input exactly when [test_input]
    is missing or null.  An empty list gives an empty input.  A list with
    elements gives the text of its first element followed, in order, by
    each further element with one line break in front of it, so that one
    line break stands between neighbours and none at the end.  A text is
    passed as it is. *)
Theorem input_data_of_test_input render problem :
  (input_data render problem = None
   <-> dict_get problem (py "test_input") JNull = JNull)
  /\ (dict_get problem (py "test_input") JNull = JList [] ->
      input_data render problem = Some [])
  /\ (forall first rest,
        dict_get problem (py "test_input") JNull = JList (first :: rest) ->
        input_data render problem
        = Some (py_str render first
                  ++ concat (map (fun element => [10%N] ++ py_str render element)
                               rest)))
  /\ (forall text,
        dict_get problem (py "test_input") JNull = JStr text ->
        input_data render problem = Some text).
Proof.
  unfold input_data. split; [|split; [|split]].
  - destruct (dict_get problem (py "test_input") JNull);
      split; intros H; (reflexivity || discriminate).
  - intros ->. reflexivity.
  - intros first rest ->. cbn [map]. rewrite join_cons.
    rewrite List.map_map. reflexivity.
  - intros text ->. reflexivity.
Qed.

(** X13 at an input of two elements: ["3"], a line break, ["4"]. *)
Lemma input_data_witness :
  input_data render_scalars pair_problem
  = Some (py_str render_scalars (JStr (py "3"))
            ++ concat (map (fun element =>
                              [10%N] ++ py_str render_scalars element)
                         [JInt 4])).
Proof.
  apply (proj1 (proj2 (proj2
           (input_data_of_test_input render_scalars pair_problem)))).
  reflexivity.
Defined.

(** ** The order of writing and running *)

Lemma count_split_true (f : event -> bool) (t1 t2 : list event) (x : event) :
  f x = true -> (0 < count f (t1 ++ x :: t2))%nat.
Proof.
  intros H. rewrite count_app. unfold count. cbn [List.filter]. rewrite H.
  cbn [length]. lia.
Qed.

(** An event that is the only one of its kind in a trace stands at one
    place. *)
Lemma split_unique (f : event -> bool) (before after t1 t2 : list event)
    (x y : event) :
  count f before = 0%nat -> count f after = 0%nat -> f y = true ->
  before ++ x :: after = t1 ++ y :: t2 ->
  t1 = before /\ y = x /\ t2 = after.
Proof.
  intros Hb Ha Hy. revert t1.
  induction before as [|b before IH]; intros t1 E.
  - destruct t1 as [|a t1]; cbn [app] in E.
    + injection E as -> ->. auto.
    + injection E as _ E. exfalso.
      pose proof (count_split_true f t1 t2 y Hy) as H. rewrite <- E in H. lia.
  - unfold count in Hb. cbn [List.filter] in Hb.
    destruct (f b) eqn:Hfb; [discriminate|].
    destruct t1 as [|a t1]; cbn [app] in E.
    + injection E as -> _. congruence.
    + injection E as -> E. destruct (IH Hb t1 E) as (-> & -> & ->). auto.
Qed.

(** Once the directory and the file are there, the child is started right
    after the line that reports the file, and not again. *)
Lemma execute_started render w i problem code :
  makedirs w i (py "./solutions") = None ->
  write_file w i (solution_path i) code = None ->
  exists after,
    trace (execute render w i problem code)
    = [MakeDirs (py "./solutions"); WriteFile (solution_path i) code;
       Print (MsgWritten (i + 1) (solution_path i))]
        ++ SubprocessRun [py "python"; solution_path i]
             (input_data render problem) 10
        :: after
    /\ count is_subprocess_run after = 0%nat.
Proof.
  intros Hm Hw.
  destruct (child w i [py "python"; solution_path i] (input_data render problem))
    as [e|elapsed out err] eqn:Hc.
  { rewrite (execute_spawn_fails _ _ _ _ _ _ Hm Hw Hc).
    eexists. split; [reflexivity|]. destruct e; reflexivity. }
  destruct elapsed as [x|].
  - destruct (Z.leb_spec x 10) as [Hle|Hgt].
    + rewrite (execute_completed _ _ _ _ _ _ _ _ Hm Hw Hc Hle).
      destruct (validation_logic_run render i problem out err)
        as [t [-> [_ [He _]]]].
      eexists. split; [reflexivity|]. cbn [trace fst].
      clear -He. unfold count in *. induction t as [|e t IH]; [reflexivity|].
      cbn [List.filter] in *. destruct e; cbn in *; try discriminate; auto.
    + erewrite execute_timeout by (try eassumption; intros ? [= <-]; exact Hgt).
      eexists. split; reflexivity.
  - erewrite execute_timeout by (try eassumption; discriminate).
    eexists. split; reflexivity.
Qed.

Lemma execute_runs render w i problem code :
  count is_subprocess_run (trace (execute render w i problem code))
  = match makedirs w i (py "./solutions"),
          write_file w i (solution_path i) code with
    | None, None => 1%nat
    | _, _ => 0%nat
    end.
Proof.
  assert (Hh : forall e, count is_subprocess_run (trace (handlers i e)) = 0%nat).
  { intros e. destruct e; reflexivity. }
  destruct (makedirs w i (py "./solutions")) as [e|] eqn:Hm.
  { rewrite (execute_makedirs_fails _ _ _ _ _ _ Hm). cbn [trace fst].
    rewrite count_app, Hh. reflexivity. }
  destruct (write_file w i (solution_path i) code) as [e|] eqn:Hw.
  { rewrite (execute_write_fails _ _ _ _ _ _ Hm Hw). cbn [trace fst].
    rewrite count_app, Hh. reflexivity. }
  destruct (execute_started render w i problem code Hm Hw) as [after [-> Ha]].
  rewrite count_app. unfold count in *. cbn [List.filter is_subprocess_run length].
  rewrite Ha. reflexivity.
Qed.

(** X10. In the trace of one pass, a start of a child process is the only
    one of the pass, its command is the interpreter with the solution
    file of the pass, and the write of that file, which succeeded and
    holds the cleaned answer, stands before it. *)
Theorem candidate_written_before_it_runs
    render w n i problem before command input timeout after :
  trace (iteration render w n i problem)
  = before ++ SubprocessRun command input timeout :: after ->
  count is_subprocess_run before = 0%nat
  /\ count is_subprocess_run after = 0%nat
  /\ command = [py "python"; solution_path i]
  /\ exists raw earlier later,
       before = earlier ++ WriteFile (solution_path i) (clean_code raw) :: later
       /\ write_file w i (solution_path i) (clean_code raw) = None
       /\ result (generate w n i
                    (dict_get problem (py "query")
                       (JStr (py "No query provided."))))
          = inr (Some raw).
Proof.
  intros E.
  assert (Hgr : count is_subprocess_run (trace (generate w n i
    (dict_get problem (py "query") (JStr (py "No query provided."))))) = 0%nat).
  { generate_cases w i
      (dict_get problem (py "query") (JStr (py "No query provided.")));
      reflexivity. }
  pose proof (count_split_true is_subprocess_run before after
                (SubprocessRun command input timeout) eq_refl) as Hpos.
  rewrite <- E in Hpos.
  destruct (iteration_cases render w n i problem)
    as [[Hg Hi]|[(raw & Hg & Hp & Hi)|(raw & Hg & Hp & Hi)]];
    rewrite Hi in E, Hpos; cbn [trace fst] in E, Hpos.
  - rewrite Hgr in Hpos. lia.
  - assert (Hd : count is_subprocess_run
                   (if i <? n - 1 then [Print MsgWaitingNext; Sleep 20] else [])
                 = 0%nat) by (destruct (i <? n - 1); reflexivity).
    rewrite !count_app, Hgr, execute_runs, Hd in Hpos.
    destruct (makedirs w i (py "./solutions")) eqn:Hm; [cbn in Hpos; lia|].
    destruct (write_file w i (solution_path i) (clean_code raw)) eqn:Hw;
      [cbn in Hpos; lia|].
    destruct (execute_started render w i problem (clean_code raw) Hm Hw)
      as [tail [Ht Htail]].
    rewrite Ht in E.
    assert (E' :
      (trace (generate w n i
                (dict_get problem (py "query") (JStr (py "No query provided."))))
         ++ [Print (MsgGeneratedCode (i + 1) (clean_code raw));
             MakeDirs (py "./solutions")]
         ++ WriteFile (solution_path i) (clean_code raw)
         :: [Print (MsgWritten (i + 1) (solution_path i))])
        ++ SubprocessRun [py "python"; solution_path i]
             (input_data render problem) 10
        :: (tail ++ (if i <? n - 1 then [Print MsgWaitingNext; Sleep 20] else []))
      = before ++ SubprocessRun command input timeout :: after).
    { rewrite <- E. rewrite <- !app_assoc. reflexivity. }
    apply (split_unique is_subprocess_run) in E' as (-> & [= -> -> ->] & ->);
      [| |rewrite count_app, Htail, Hd; reflexivity|reflexivity].
    + split.
      { rewrite !count_app, Hgr. reflexivity. }
      split; [rewrite count_app, Htail, Hd; reflexivity|].
      split; [reflexivity|].
      exists raw. eexists _, _. split; [|split; [exact Hw|exact Hg]].
      rewrite app_assoc. reflexivity.
    + rewrite !count_app, Hgr. reflexivity.
  - rewrite count_app, Hgr in Hpos. cbn in Hpos. lia.
Qed.

(** X10 at a run that goes well. *)
Lemma candidate_written_witness :
  count is_subprocess_run
    [Print (MsgProcessing 1 1 1 3); LlmInvoke (JStr (py "print sign"));
     Print (MsgGeneratedCode 1 (clean_code sign_program));
     MakeDirs (py "./solutions");
     WriteFile (solution_path 0) (clean_code sign_program);
     Print (MsgWritten 1 (solution_path 0))] = 0%nat
  /\ count is_subprocess_run
       [Print (MsgOutputFrom 1 (py "POSITIVE"));
        Print (MsgValidationResult true)] = 0%nat
  /\ [py "python"; solution_path 0] = [py "python"; solution_path 0]
  /\ exists raw earlier later,
       [Print (MsgProcessing 1 1 1 3); LlmInvoke (JStr (py "print sign"));
        Print (MsgGeneratedCode 1 (clean_code sign_program));
        MakeDirs (py "./solutions");
        WriteFile (solution_path 0) (clean_code sign_program);
        Print (MsgWritten 1 (solution_path 0))]
       = earlier ++ WriteFile (solution_path 0) (clean_code raw) :: later
       /\ write_file
            (steady_world (inr sign_program) (Runs (Some 1) (py "POSITIVE") []))
            0 (solution_path 0) (clean_code raw) = None
       /\ result (generate
                    (steady_world (inr sign_program)
                       (Runs (Some 1) (py "POSITIVE") []))
                    1 0
                    (dict_get sign_problem (py "query")
                       (JStr (py "No query provided."))))
          = inr (Some raw).
Proof.
  apply (candidate_written_before_it_runs render_scalars
    (steady_world (inr sign_program) (Runs (Some 1) (py "POSITIVE") []))
    1 0 sign_problem
    [Print (MsgProcessing 1 1 1 3); LlmInvoke (JStr (py "print sign"));
     Print (MsgGeneratedCode 1 (clean_code sign_program));
     MakeDirs (py "./solutions");
     WriteFile (solution_path 0) (clean_code sign_program);
     Print (MsgWritten 1 (solution_path 0))]
    [py "python"; solution_path 0] (Some (py "5")) 10
    [Print (MsgOutputFrom 1 (py "POSITIVE")); Print (MsgValidationResult true)]).
  reflexivity.
Defined.
